(** * A shallow embedding of [prolog_interpreter.py]

    The interpreter works on nested Python lists: a term is a string, an
    integer or a boolean, or a list of terms.  The two-element shapes
    [["v", name]] and [["n", name]] mark variables and predicate names.
    Binding sets are Python dictionaries that [unify] updates in place, so
    they live in a store of dictionaries addressed by references;
    [copy.deepcopy] allocates a new one.  List terms are never updated in
    place by the interpreter and are plain values here.  Floating point
    atoms are left out, and strings are the ASCII strings of the standard
    library. *)

From Stdlib Require Import ZArith String Ascii Lia DecimalString.
From stdpp Require Import base list pmap.

Local Open Scope nat_scope.
Set Warnings "-register-all".

(** ** Results of Python computations *)

Inductive exn := TypeError | IndexError.

(** [OutOfFuel] stands for a computation that exceeds the recursion depth
    given as fuel (Python raises RecursionError, or would not return). *)
Inductive outcome (A : Type) :=
  | Ok (a : A)
  | Raise (e : exn)
  | OutOfFuel.
Arguments Ok {A} a.
Arguments Raise {A} e.
Arguments OutOfFuel {A}.

Definition obind {A B} (m : outcome A) (k : A -> outcome B) : outcome B :=
  match m with
  | Ok a => k a
  | Raise e => Raise e
  | OutOfFuel => OutOfFuel
  end.

Declare Scope outcome_scope.
Delimit Scope outcome_scope with outcome.
Notation "'let*' x ':=' m 'in' k" := (obind m (fun x => k))
  (at level 10, x name, m at level 100, k at level 200) : outcome_scope.

Section MapM.
Context {A B : Type} (f : A -> outcome B).

(** A list comprehension [[f(x) for x in l]], evaluated left to right. *)
Fixpoint mapM (l : list A) : outcome (list B) :=
  match l with
  | [] => Ok []
  | x :: l' =>
      match f x with
      | Ok y =>
          match mapM l' with
          | Ok ys => Ok (y :: ys)
          | Raise e => Raise e
          | OutOfFuel => OutOfFuel
          end
      | Raise e => Raise e
      | OutOfFuel => OutOfFuel
      end
  end.
End MapM.

(** ** Python values *)

Inductive atom :=
  | PStr (s : string)
  | PInt (z : Z)
  | PBool (b : bool).

Inductive term :=
  | Atom (a : atom)
  | PList (items : list term).

(** [isinstance(x, (int, float))]: [bool] is a subclass of [int]. *)
Definition int_value (a : atom) : option Z :=
  match a with
  | PInt z => Some z
  | PBool b => Some (if b then 1%Z else 0%Z)
  | PStr _ => None
  end.

(** [a1 == a2] on atoms: strings by value, numbers and booleans by numeric
    value ([True == 1]), a string never equals a number. *)
Definition py_eq_atom (a1 a2 : atom) : bool :=
  match a1, a2 with
  | PStr s1, PStr s2 => String.eqb s1 s2
  | _, _ =>
      match int_value a1, int_value a2 with
      | Some z1, Some z2 => Z.eqb z1 z2
      | _, _ => false
      end
  end.

(** [t == 'lit'] for a string literal. *)
Definition is_str (t : term) (lit : string) : bool :=
  match t with
  | Atom (PStr s) => String.eqb s lit
  | _ => false
  end.

(** Truthiness, as in [if not body] and [if rest_goals]. *)
Definition py_truthy (t : term) : bool :=
  match t with
  | PList [] => false
  | PList _ => true
  | Atom (PStr s) => negb (String.eqb s "")
  | Atom (PInt z) => negb (Z.eqb z 0)
  | Atom (PBool b) => b
  end.

(** [len(t)]: defined on lists and strings. *)
Definition py_len (t : term) : outcome nat :=
  match t with
  | PList items => Ok (length items)
  | Atom (PStr s) => Ok (String.length s)
  | Atom _ => Raise TypeError
  end.

(** [t[i]] for a literal index [i >= 0]. *)
Definition py_getitem (t : term) (i : nat) : outcome term :=
  match t with
  | PList items =>
      match items !! i with
      | Some x => Ok x
      | None => Raise IndexError
      end
  | Atom (PStr s) =>
      match String.get i s with
      | Some c => Ok (Atom (PStr (String c EmptyString)))
      | None => Raise IndexError
      end
  | Atom _ => Raise TypeError
  end.

(** [t[:n]]. *)
Definition py_take (n : nat) (t : term) : outcome term :=
  match t with
  | PList items => Ok (PList (take n items))
  | Atom (PStr s) => Ok (Atom (PStr (String.substring 0 (Nat.min n (String.length s)) s)))
  | Atom _ => Raise TypeError
  end.

(** A dictionary key has to be hashable: a list is not. *)
Definition hash_key (t : term) : outcome atom :=
  match t with
  | Atom a => Ok a
  | PList _ => Raise TypeError
  end.

(** ** Dictionaries

    Insertion-ordered, keys compared with [==]. *)

Definition dict := list (atom * term).

Fixpoint dict_get (k : atom) (d : dict) : option term :=
  match d with
  | [] => None
  | (k', v) :: d' => if py_eq_atom k' k then Some v else dict_get k d'
  end.

Fixpoint dict_set (k : atom) (v : term) (d : dict) : dict :=
  match d with
  | [] => [(k, v)]
  | (k', v') :: d' =>
      if py_eq_atom k' k then (k', v) :: d' else (k', v') :: dict_set k v d'
  end.

(** ** Terms: variables, substitution, unification *)

Definition is_variable (t : term) : bool :=
  match t with
  | PList [t0; _] => is_str t0 "v"
  | _ => false
  end.

Definition is_atom (t : term) : bool :=
  match t with
  | Atom _ => true
  | PList _ => false
  end.

(** [None] is Python's [None]; a name is returned exactly when
    [is_variable] holds. *)
Definition get_variable_name (var_term : term) : option term :=
  match var_term with
  | PList [t0; t1] => if is_str t0 "v" then Some t1 else None
  | _ => None
  end.

Fixpoint substitute_variables (t : term) (bindings : dict) : outcome term :=
  match t with
  | Atom _ => Ok t
  | PList items =>
      match get_variable_name t with
      | Some var_name =>
          (let* k := hash_key var_name in
           match dict_get k bindings with
           | Some v => Ok v
           | None => Ok t
           end)%outcome
      | None =>
          (let* items' := mapM (fun subterm => substitute_variables subterm bindings) items in
           Ok (PList items'))%outcome
      end
  end.

Section UnifyLoop.
Context (unify_rec : term -> term -> dict -> outcome (dict * bool)).

(** The loop [for i in range(len(term1))] of [unify], on two lists of
    equal length. *)
Fixpoint unify_items (l1 l2 : list term) (bindings : dict)
  : outcome (dict * bool) :=
  match l1, l2 with
  | x :: l1', y :: l2' =>
      match unify_rec x y bindings with
      | Ok (bindings', true) => unify_items l1' l2' bindings'
      | other => other
      end
  | _, _ => Ok (bindings, true)
  end.
End UnifyLoop.

(** [unify] updates the dictionary it is given and returns it, or returns
    [None].  The result is the final contents of that dictionary, and
    [true] when the dictionary was returned, [false] for [None]. *)
Fixpoint unify (fuel : nat) (term1 term2 : term) (bindings : dict)
  : outcome (dict * bool) :=
  match fuel with
  | 0 => OutOfFuel
  | S fuel' =>
      match get_variable_name term1 with
      | Some var_name =>
          (let* k := hash_key var_name in
           match dict_get k bindings with
           | Some v => unify fuel' v term2 bindings
           | None => Ok (dict_set k term2 bindings, true)
           end)%outcome
      | None =>
          match get_variable_name term2 with
          | Some var_name =>
              (let* k := hash_key var_name in
               match dict_get k bindings with
               | Some v => unify fuel' term1 v bindings
               | None => Ok (dict_set k term1 bindings, true)
               end)%outcome
          | None =>
              match term1, term2 with
              | Atom a1, Atom a2 => Ok (bindings, py_eq_atom a1 a2)
              | PList l1, PList l2 =>
                  if negb (length l1 =? length l2) then Ok (bindings, false)
                  else unify_items (unify fuel') l1 l2 bindings
              | _, _ => Ok (bindings, false)
              end
          end
      end
  end.

(** [str(n)] for an integer. *)
Definition py_str_int (z : Z) : string :=
  NilZero.string_of_int (Z.to_int z).

(** [rename_variables] with the suffix already chosen. *)
Fixpoint rename_with (suffix : string) (t : term) : outcome term :=
  match t with
  | Atom _ => Ok t
  | PList items =>
      match get_variable_name t, items with
      | Some (Atom (PStr var_name)), t0 :: _ =>
          Ok (PList [t0; Atom (PStr (String.append var_name (String.append "_" suffix)))])
      | Some _, _ => Raise TypeError
      | None, _ =>
          (let* items' := mapM (rename_with suffix) items in
           Ok (PList items'))%outcome
      end
  end.

Fixpoint resolve_variable_chains (fuel : nat) (t : term) (bindings : dict)
  : outcome term :=
  match fuel with
  | 0 => OutOfFuel
  | S fuel' =>
      match t with
      | Atom _ => Ok t
      | PList items =>
          match get_variable_name t with
          | Some var_name =>
              (let* k := hash_key var_name in
               match dict_get k bindings with
               | Some value => resolve_variable_chains fuel' value bindings
               | None => Ok t
               end)%outcome
          | None =>
              (let* items' := mapM (fun subterm =>
                                 resolve_variable_chains fuel' subterm bindings) items in
               Ok (PList items'))%outcome
          end
      end
  end.

(** ** The interpreter state

    [heap] holds the dictionaries (binding sets) created so far, each
    under the reference it was given when it was created, and [next] is
    the first reference not yet in use.  [draws] counts the calls to
    [random.randint] and [stdout] collects what [writeln] prints.  The
    debugging [print] calls of [only_ssi_test] are not recorded. *)

Definition ref := positive.
Bind Scope positive_scope with ref.

Record state := State {
  heap : Pmap dict;
  next : ref;
  draws : nat;
  stdout : list term
}.

Definition M (A : Type) : Type := state -> outcome (A * state).

Definition mret {A} (a : A) : M A := fun st => Ok (a, st).

Definition mbind {A B} (m : M A) (k : A -> M B) : M B :=
  fun st =>
    match m st with
    | Ok (a, st') => k a st'
    | Raise e => Raise e
    | OutOfFuel => OutOfFuel
    end.

Definition lift {A} (m : outcome A) : M A :=
  fun st =>
    match m with
    | Ok a => Ok (a, st)
    | Raise e => Raise e
    | OutOfFuel => OutOfFuel
    end.

Definition out_of_fuel {A} : M A := fun _ => OutOfFuel.

Declare Scope interp_scope.
Delimit Scope interp_scope with interp.
Notation "'let*' x ':=' m 'in' k" := (mbind m (fun x => k))
  (at level 10, x name, m at level 100, k at level 200) : interp_scope.

(** The dictionary behind a reference.  Every reference the interpreter
    uses was allocated before, the default is never reached from
    [only_ssi_test]. *)
Definition deref (h : Pmap dict) (r : ref) : dict := default [] (h !! r).

Definition load (r : ref) : M dict :=
  fun st => Ok (deref (heap st) r, st).

Definition store (r : ref) (d : dict) : M unit :=
  fun st =>
    Ok (tt, State (<[r := d]> (heap st)) (next st) (draws st) (stdout st)).

(** A new dictionary object with the contents [d]. *)
Definition alloc (d : dict) (st : state) : state :=
  State (<[next st := d]> (heap st)) (Pos.succ (next st)) (draws st) (stdout st).

(** [{}] *)
Definition new_dict : M ref :=
  fun st => Ok (next st, alloc [] st).

(** [copy.deepcopy(bindings)] *)
Definition deepcopy (r : ref) : M ref :=
  fun st => Ok (next st, alloc (deref (heap st) r) st).

(** [print(term)] *)
Definition print (t : term) : M unit :=
  fun st => Ok (tt, State (heap st) (next st) (draws st) (stdout st ++ [t])).

(** [self.unify(term1, term2, bindings)] on a dictionary of the store: the
    dictionary is updated in place whether or not unification succeeds. *)
Definition unify_at (fuel : nat) (term1 term2 : term) (bindings : ref)
  : M (option ref) :=
  (let* d := load bindings in
   let* r := lift (unify fuel term1 term2 d) in
   let* _ := store bindings (fst r) in
   mret (if snd r then Some bindings else None))%interp.

Section ForEach.
Context {A B : Type} (f : A -> M (list B)).

(** [for x in l: solutions.extend(f(x))] *)
Fixpoint for_each (l : list A) : M (list B) :=
  match l with
  | [] => mret []
  | x :: l' =>
      (let* ys := f x in
       let* rest := for_each l' in
       mret (ys ++ rest))%interp
  end.
End ForEach.

(** ** The knowledge base *)

Record rule := Rule { head : term; body : term }.

Record knowledge_base := KB { facts : list term; rules : list rule }.

Definition is_rule_clause (item : term) : outcome bool :=
  (let* n := py_len item in
   if 3 <=? n then
     let* sep := py_getitem item 2 in Ok (is_str sep ":-")
   else Ok false)%outcome.

Definition make_rule (item : term) : outcome rule :=
  (let* h := py_take 2 item in
   let* n := py_len item in
   let* b := (if 3 <? n then py_getitem item 3 else Ok (PList [])) in
   Ok (Rule h b))%outcome.

Fixpoint parse_knowledge_base (kb : list term) : outcome knowledge_base :=
  match kb with
  | [] => Ok (KB [] [])
  | item :: kb' =>
      (let* is_rule := is_rule_clause item in
       if is_rule then
         let* r := make_rule item in
         let* rest := parse_knowledge_base kb' in
         Ok (KB (facts rest) (r :: rules rest))
       else
         let* rest := parse_knowledge_base kb' in
         Ok (KB (item :: facts rest) (rules rest)))%outcome
  end.

Definition is_builtin_predicate (goal : term) : bool :=
  match goal with
  | PList (PList [tag; pred_name] :: _ :: _) =>
      is_str tag "n" &&
      (is_str pred_name "findall" || is_str pred_name "not" ||
       is_str pred_name "=" || is_str pred_name ">" ||
       is_str pred_name "<" || is_str pred_name "writeln")
  | _ => false
  end.

(** [goal[0][1] if isinstance(goal[0], list) and goal[0][0] == 'n' else None] *)
Definition builtin_name (goal0 : term) : outcome (option term) :=
  match goal0 with
  | PList _ =>
      (let* tag := py_getitem goal0 0 in
       if is_str tag "n" then
         let* pred_name := py_getitem goal0 1 in Ok (Some pred_name)
       else Ok None)%outcome
  | Atom _ => Ok None
  end.

Definition name_is (pred_name : option term) (lit : string) : bool :=
  match pred_name with
  | Some p => is_str p lit
  | None => false
  end.

Definition is_number (t : term) : option Z :=
  match t with
  | Atom a => int_value a
  | PList _ => None
  end.

Section Interpreter.
(** [randint k] is what the [k]-th call of [random.randint(1000, 9999)]
    returns. *)
Variable randint : nat -> Z.

(** [rename_variables(term)]: called without a suffix, it draws one. *)
Definition rename_variables (t : term) : M term :=
  fun st =>
    let suffix := py_str_int (randint (draws st)) in
    match rename_with suffix t with
    | Ok t' => Ok (t', State (heap st) (next st) (S (draws st)) (stdout st))
    | Raise e => Raise e
    | OutOfFuel => OutOfFuel
    end.

Definition solve_equals (fuel : nat) (args : term) (bindings : ref)
  : M (list ref) :=
  (let* n := lift (py_len args) in
   if negb (n =? 2) then mret []
   else
     let* a0 := lift (py_getitem args 0) in
     let* a1 := lift (py_getitem args 1) in
     let* c := deepcopy bindings in
     let* result_bindings := unify_at fuel a0 a1 c in
     mret (option_list result_bindings))%interp.

Definition solve_greater (args : term) (bindings : ref) : M (list ref) :=
  (let* n := lift (py_len args) in
   if negb (n =? 2) then mret []
   else
     let* a0 := lift (py_getitem args 0) in
     let* d := load bindings in
     let* left := lift (substitute_variables a0 d) in
     let* a1 := lift (py_getitem args 1) in
     let* d' := load bindings in
     let* right := lift (substitute_variables a1 d') in
     match is_number left, is_number right with
     | Some l, Some r => if (r <? l)%Z then mret [bindings] else mret []
     | _, _ => mret []
     end)%interp.

Definition solve_writeln (args : term) (bindings : ref) : M (list ref) :=
  (let* n := lift (py_len args) in
   if negb (n =? 1) then mret []
   else
     let* a0 := lift (py_getitem args 0) in
     let* d := load bindings in
     let* t := lift (substitute_variables a0 d) in
     let* _ := print t in
     mret [bindings])%interp.

Section Solver.
(** The interpreter object after [parse_knowledge_base]. *)
Variable self : knowledge_base.

Fixpoint solve_goal (fuel : nat) (goal : term) (bindings : ref)
  : M (list ref) :=
  match fuel with
  | 0 => out_of_fuel
  | S fuel' =>
      (let* from_facts :=
         for_each (fun fact =>
           let* c := deepcopy bindings in
           let* result_bindings := unify_at fuel' goal fact c in
           mret (option_list result_bindings)) (facts self) in
       let* from_rules :=
         for_each (fun r =>
           let* rule_head := rename_variables (head r) in
           let* rule_body := rename_variables (body r) in
           let* c := deepcopy bindings in
           let* result_bindings := unify_at fuel' goal rule_head c in
           match result_bindings with
           | Some rb => solve_body fuel' rule_body rb
           | None => mret []
           end) (rules self) in
       mret (from_facts ++ from_rules))%interp
  end

with solve_body (fuel : nat) (body : term) (bindings : ref)
  : M (list ref) :=
  match fuel with
  | 0 => out_of_fuel
  | S fuel' =>
      if negb (py_truthy body) then mret [bindings]
      else
        match body with
        | PList (first_goal :: rest_goals) =>
            (let* first_solutions :=
               (if is_builtin_predicate first_goal
                then solve_builtin fuel' first_goal bindings
                else solve_goal fuel' first_goal bindings) in
             for_each (fun solution =>
               if py_truthy (PList rest_goals)
               then solve_body fuel' (PList rest_goals) solution
               else mret [solution]) first_solutions)%interp
        | _ => mret []
        end
  end

with solve_builtin (fuel : nat) (goal : term) (bindings : ref)
  : M (list ref) :=
  match fuel with
  | 0 => out_of_fuel
  | S fuel' =>
      match goal with
      | PList (goal0 :: goal1 :: _) =>
          (let* pred_name := lift (builtin_name goal0) in
           if name_is pred_name "findall" then solve_findall fuel' goal1 bindings
           else if name_is pred_name "=" then solve_equals fuel' goal1 bindings
           else if name_is pred_name ">" then solve_greater goal1 bindings
           else if name_is pred_name "not" then solve_not fuel' goal1 bindings
           else if name_is pred_name "writeln" then solve_writeln goal1 bindings
           else mret [])%interp
      | _ => mret []
      end
  end

with solve_findall (fuel : nat) (args : term) (bindings : ref)
  : M (list ref) :=
  match fuel with
  | 0 => out_of_fuel
  | S fuel' =>
      (let* n := lift (py_len args) in
       if negb (n =? 3) then mret []
       else
         let* template := lift (py_getitem args 0) in
         let* goal_list := lift (py_getitem args 1) in
         let* result_var := lift (py_getitem args 2) in
         match goal_list with
         | PList _ =>
             let* c := deepcopy bindings in
             let* goal_solutions := solve_body fuel' goal_list c in
             let* results :=
               for_each (fun solution =>
                 let* d := load solution in
                 let* instantiated_template :=
                   lift (substitute_variables template d) in
                 mret [instantiated_template]) goal_solutions in
             match get_variable_name result_var with
             | Some var_name =>
                 let* new_bindings := deepcopy bindings in
                 let* k := lift (hash_key var_name) in
                 let* d := load new_bindings in
                 let* _ := store new_bindings (dict_set k (PList results) d) in
                 mret [new_bindings]
             | None =>
                 let* c' := deepcopy bindings in
                 let* result_bindings :=
                   unify_at fuel' result_var (PList results) c' in
                 mret (option_list result_bindings)
             end
         | Atom _ => mret []
         end)%interp
  end

with solve_not (fuel : nat) (args : term) (bindings : ref)
  : M (list ref) :=
  match fuel with
  | 0 => out_of_fuel
  | S fuel' =>
      (let* n := lift (py_len args) in
       if negb (n =? 1) then mret []
       else
         let* goal := lift (py_getitem args 0) in
         let* c := deepcopy bindings in
         let* solutions := solve_goal fuel' goal c in
         match solutions with
         | [] => mret [bindings]
         | _ :: _ => mret []
         end)%interp
  end.
End Solver.

(** [only_ssi_test(depth, query, kb)]; [solve_goal(goal)] starts from a
    new empty dictionary. *)
Definition only_ssi_test (fuel : nat) (depth : Z) (query : term)
    (kb : list term) : M term :=
  match fuel with
  | 0 => out_of_fuel
  | S fuel' =>
      (let* self := lift (parse_knowledge_base kb) in
       let* predicate_info := lift (py_getitem query 0) in
       let* variable_info := lift (py_getitem query 1) in
       let goal := PList [predicate_info; variable_info] in
       let* b := new_dict in
       let* solutions := solve_goal self fuel' goal b in
       let* results :=
         match solutions with
         | [] => mret (PList [])
         | solution :: _ =>
             let* v0 := lift (py_getitem variable_info 0) in
             let* var_name := lift (py_getitem v0 1) in
             let* k := lift (hash_key var_name) in
             let* d := load solution in
             match dict_get k d with
             | Some raw_value =>
                 lift (resolve_variable_chains fuel' raw_value d)
             | None => mret (PList [])
             end
         end in
       let* v0 := lift (py_getitem variable_info 0) in
       mret (PList [PList [v0; results]]))%interp
  end.
End Interpreter.

(** ** The family-tree example of [main] *)

Module Family.
Definition str (x : string) : term := Atom (PStr x).
Definition num (z : Z) : term := Atom (PInt z).
Definition n (x : string) : term := PList [str "n"; str x].
Definition v (x : string) : term := PList [str "v"; str x].

Definition parent (x y : string) : term := PList [n "parent"; PList [str x; str y]].
Definition male (x : string) : term := PList [n "male"; PList [str x]].
Definition yearofbirth (x : string) (y : Z) : term :=
  PList [n "yearofbirth"; PList [str x; num y]].

Definition query : term := PList [n "older_brother"; PList [v "result6"]].

Definition kb : list term :=
  [ parent "albert" "jim"; parent "albert" "peter"; parent "jim" "brian";
    parent "john" "darren"; parent "peter" "lee"; parent "peter" "sandra";
    parent "peter" "james"; parent "peter" "kate"; parent "peter" "kyle";
    parent "brian" "jenny"; parent "irene" "jim"; parent "irene" "peter";
    parent "pat" "brian"; parent "pat" "darren"; parent "amanda" "jenny";
    PList [n "older_brother"; PList [v "c"]; str ":-";
      PList [
        PList [n "findall";
          PList [
            PList [v "a"; v "b"];
            PList [
              PList [n "siblings"; PList [v "a"; v "b"]];
              PList [n "male"; PList [v "a"]];
              PList [n "older"; PList [v "a"; v "b"]]
            ];
            v "c"
          ]]
      ]];
    PList [n "siblings"; PList [v "a"; v "b"]; str ":-";
      PList [
        PList [n "parent"; PList [v "x"; v "a"]];
        PList [n "parent"; PList [v "x"; v "b"]];
        PList [n "not"; PList [PList [n "="; PList [v "a"; v "b"]]]]
      ]];
    male "albert"; male "jim"; male "peter"; male "brian"; male "john";
    male "darren"; male "james"; male "kyle";
    yearofbirth "irene" 1923; yearofbirth "pat" 1954;
    yearofbirth "lee" 1970; yearofbirth "sandra" 1973;
    yearofbirth "jenny" 2004; yearofbirth "amanda" 1979;
    yearofbirth "albert" 1926; yearofbirth "jim" 1949;
    yearofbirth "peter" 1945; yearofbirth "brian" 1974;
    yearofbirth "john" 1955; yearofbirth "darren" 1976;
    yearofbirth "james" 1969; yearofbirth "kate" 1975;
    yearofbirth "kyle" 1976;
    PList [n "older"; PList [v "a"; v "b"]; str ":-";
      PList [
        PList [n "yearofbirth"; PList [v "a"; v "y1"]];
        PList [n "yearofbirth"; PList [v "b"; v "y2"]];
        PList [n ">"; PList [v "y2"; v "y1"]]
      ]];
    PList [n "family_test"; str ":-";
      PList [
        PList [n "older_brother"; PList [v "result6"]];
        PList [n "writeln"; PList [v "result6"]]
      ]]
  ].

Definition pair (x y : string) : term := PList [str x; str y].

(** The value [main] binds to [expected_result]. *)
Definition expected_result : term :=
  PList [PList [v "result6";
    PList [pair "peter" "jim"; pair "james" "lee"; pair "james" "sandra";
           pair "james" "kate"; pair "james" "kyle"; pair "peter" "jim";
           pair "brian" "darren"]]].

Definition initial : state := State ∅ 1%positive 0 [].

(** Every call of [random.randint] returns a new value. *)
Definition distinct_draws (k : nat) : Z := (1000 + Z.of_nat k)%Z.

(** The two draws of one rule application (head, then body) agree, and
    differ from those of every other application. *)
Definition paired_draws (k : nat) : Z := (1000 + Z.of_nat (k / 2))%Z.

(** As [paired_draws], except that the very first draw, for the head of
    the first rule tried, is 9999 and differs from the second one. *)
Definition split_draws (k : nat) : Z :=
  match k with
  | 0 => 9999%Z
  | S _ => paired_draws k
  end.
End Family.

(** * Definitions used in the statements *)

(** ** Small knowledge bases used to exercise the theorems *)

Module Tiny.
Import Family.

Definition colour (x : string) : term := PList [n "colour"; PList [str x]].

(** Two facts and the rule [likes(X) :- colour(X)]. *)
Definition self : knowledge_base :=
  KB [colour "red"; colour "blue"]
     [Rule (PList [n "likes"; PList [v "x"]])
           (PList [PList [n "colour"; PList [v "x"]]])].

Definition goal : term := PList [n "colour"; PList [v "q"]].

(** One empty binding set, at reference [1]. *)
Definition st0 : state := alloc [] Family.initial.

Definition no_facts : knowledge_base := KB [] [].

(** [x] is bound to the variable [y], [y] to a pair of names. *)
Definition chain : dict :=
  [(PStr "x", PList [str "v"; str "y"]); (PStr "y", pair "peter" "jim")].

(** The goal list [[nothing(a)]]: no clause is about [nothing]. *)
Definition nothing_goals : list term :=
  [PList [n "nothing"; PList [str "a"]]].
End Tiny.

(** Every variable reference in the term carries a hashable name (a
    string, a number or a boolean, not a list), as the data model has it. *)
Fixpoint hashable_names (t : term) : bool :=
  match t with
  | Atom _ => true
  | PList items =>
      match get_variable_name t with
      | Some (Atom _) => true
      | Some (PList _) => false
      | None => forallb hashable_names items
      end
  end.

(** [left > right] after [isinstance(..., (int, float))] held for both. *)
Definition numeric_greater (l r : term) : bool :=
  match is_number l, is_number r with
  | Some zl, Some zr => (zr <? zl)%Z
  | _, _ => false
  end.

Section TermInduction.
Variable P : term -> Prop.
Hypothesis P_atom : forall a, P (Atom a).
Hypothesis P_list : forall items, Forall P items -> P (PList items).

Fixpoint term_induction (t : term) : P t :=
  match t with
  | Atom a => P_atom a
  | PList items =>
      P_list items
        ((fix all (l : list term) : Forall P l :=
            match l with
            | [] => @List.Forall_nil term P
            | x :: l' => @List.Forall_cons term P x l' (term_induction x) (all l')
            end) items)
  end.
End TermInduction.

(** The variable reference [["v", name]]. *)
Definition var_ref (name : atom) : term := PList [Atom (PStr "v"); Atom name].

(** A term without variable references. *)
Fixpoint ground (t : term) : bool :=
  match t with
  | Atom _ => true
  | PList items =>
      match get_variable_name t with
      | Some _ => false
      | None => forallb ground items
      end
  end.

(** Nesting depth of a term. *)
Fixpoint height (t : term) : nat :=
  match t with
  | Atom _ => 0
  | PList items => S (foldr (fun x m => Nat.max (height x) m) 0 items)
  end.

(** The element pairs of two lists unify one after the other, each
    starting from the bindings the previous one left. *)
Inductive threaded (u : term -> term -> dict -> outcome (dict * bool))
  : list term -> list term -> dict -> dict -> Prop :=
  | threaded_nil b : threaded u [] [] b b
  | threaded_cons x y l1 l2 b b1 b2 :
      u x y b = Ok (b1, true) ->
      threaded u l1 l2 b1 b2 ->
      threaded u (x :: l1) (y :: l2) b b2.

(** The names [is_builtin_predicate] looks for. *)
Definition builtin_names : list string :=
  ["findall"; "not"; "="; ">"; "<"; "writeln"]%string.

(** The goal [<(1, 2)], with the fact [<(1, 2)] in the knowledge base. *)
Definition less_goal : term :=
  PList [Family.n "<"; PList [Family.num 1; Family.num 2]].

(** What [only_ssi_test] computes for [older_brother(Result)] when the
    head and the body of every rule application happen to draw the same
    suffix: seven copies of the renamed variable pair of the [siblings]
    rule.  [findall] instantiates its template with one lookup per
    variable, and the first lookup of [a] and [b] ends at the variables of
    the [siblings] head. *)
Definition unresolved_pairs : term :=
  PList [PList [Family.v "result6";
    PList (replicate 7 (PList [Family.v "a_1002"; Family.v "b_1002"]))]].

(** A rule whose head and body share the variable [x]:
    [answer(X) :- X = 1]. *)
Definition answer_rule : rule :=
  Rule (PList [Family.n "answer"; PList [Family.v "x"]])
       (PList [PList [Family.n "="; PList [Family.v "x"; Family.num 1]]]).

(** ** Shapes of clauses and goals *)

(** What [len] and indexing accept: a list or a string. *)
Definition sequence_like (t : term) : bool :=
  match t with
  | PList _ => true
  | Atom (PStr _) => true
  | Atom _ => false
  end.

(** A clause of at least three elements with [":-"] at index 2. *)
Definition rule_shape (item : term) : bool :=
  match item with
  | PList l =>
      match l !! 2 with
      | Some sep => is_str sep ":-"
      | None => false
      end
  | Atom _ => false
  end.

(** The rule stored for a clause of that shape: the first two elements
    as head, the element at index 3 as body, the empty list without it. *)
Definition rule_of (item : term) : rule :=
  match item with
  | PList l => Rule (PList (take 2 l)) (default (PList []) (l !! 3))
  | Atom _ => Rule item (PList [])
  end.

(** The predicate application [[["n", name], args]]. *)
Definition call (name : string) (args : term) : term :=
  PList [PList [Atom (PStr "n"); Atom (PStr name)]; args].

(** A clause that starts with [["n", p]] for a name [p] other than
    [name]. *)
Definition other_predicate (name : string) (clause : term) : bool :=
  match clause with
  | PList (PList [Atom (PStr tag); Atom (PStr p)] :: _) =>
      String.eqb tag "n" && negb (String.eqb p name)
  | _ => false
  end.

(** A goal [<(...)]: at least two elements, the first one [["n", "<"]]. *)
Definition less_than_goal (goal : term) : bool :=
  match goal with
  | PList (PList [tag; pred_name] :: _ :: _) =>
      is_str tag "n" && is_str pred_name "<"
  | _ => false
  end.

(** The binding sets that the facts loop of [solve_goal] produces from
    the bindings [d]: one per fact that unifies with the goal, in the order
    of the facts. *)
Definition fact_matches (fuel : nat) (goal : term) (d : dict)
    (facts : list term) : list dict :=
  flat_map (fun fact =>
              match unify fuel goal fact d with
              | Ok (d', true) => [d']
              | _ => []
              end) facts.

(** The bindings [b] lead from the variable [x] to the ground term [t]
    through [n] intermediate variables. *)
Inductive chain_to (b : dict) : atom -> term -> nat -> Prop :=
  | chain_end x t :
      dict_get x b = Some t -> ground t = true -> chain_to b x t 0
  | chain_step x y t n :
      dict_get x b = Some (var_ref y) -> chain_to b y t n ->
      chain_to b x t (S n).

(** * Properties *)

(** ** Inversion of monadic steps *)

Lemma mbind_ok {A B} (m : M A) (k : A -> M B) st r :
  mbind m k st = Ok r -> exists a st1, m st = Ok (a, st1) /\ k a st1 = Ok r.
Proof.
  unfold mbind. destruct (m st) as [[a st1]| |]; try discriminate.
  intros H. exists a, st1. split; [reflexivity | exact H].
Qed.

Lemma mret_ok {A} (a a' : A) st st' :
  mret a st = Ok (a', st') -> a' = a /\ st' = st.
Proof. unfold mret. intros H. injection H as <- <-. split; reflexivity. Qed.

Lemma lift_ok {A} (m : outcome A) a st st' :
  lift m st = Ok (a, st') -> m = Ok a /\ st' = st.
Proof.
  unfold lift. destruct m; try discriminate.
  intros H. injection H as <- <-. split; reflexivity.
Qed.

Lemma obind_ok {A B} (m : outcome A) (k : A -> outcome B) r :
  obind m k = Ok r -> exists a, m = Ok a /\ k a = Ok r.
Proof. destruct m; try discriminate. simpl. intros H. exists a. auto. Qed.

Lemma load_ok r d st st' :
  load r st = Ok (d, st') -> d = deref (heap st) r /\ st' = st.
Proof. unfold load. intros H. injection H as <- <-. split; reflexivity. Qed.

Lemma deepcopy_ok b c st st' :
  deepcopy b st = Ok (c, st') ->
  c = next st /\ st' = alloc (deref (heap st) b) st.
Proof. unfold deepcopy. intros H. injection H as <- <-. split; reflexivity. Qed.

Lemma store_ok r d u st st' :
  store r d st = Ok (u, st') ->
  st' = State (<[r := d]> (heap st)) (next st) (draws st) (stdout st).
Proof. unfold store. intros H. injection H as _ <-. reflexivity. Qed.

Lemma unify_at_ok fuel t1 t2 c r st st' :
  unify_at fuel t1 t2 c st = Ok (r, st') ->
  exists d' ok,
    unify fuel t1 t2 (deref (heap st) c) = Ok (d', ok) /\
    r = (if ok then Some c else None) /\
    st' = State (<[c := d']> (heap st)) (next st) (draws st) (stdout st).
Proof.
  unfold unify_at. intros H.
  apply mbind_ok in H as (d & st1 & Hl & H). apply load_ok in Hl as [-> ->].
  apply mbind_ok in H as ([d' ok] & st1 & Hu & H). apply lift_ok in Hu as [Hu ->].
  apply mbind_ok in H as (u & st1 & Hs & H). apply store_ok in Hs as ->.
  apply mret_ok in H as [-> ->]. exists d', ok. auto.
Qed.

Lemma rename_variables_ok randint t t' st st' :
  rename_variables randint t st = Ok (t', st') ->
  rename_with (py_str_int (randint (draws st))) t = Ok t' /\
  st' = State (heap st) (next st) (S (draws st)) (stdout st).
Proof.
  unfold rename_variables.
  destruct (rename_with _ t); try discriminate.
  intros H. injection H as <- <-. split; reflexivity.
Qed.

(** Peels the first step off a monadic computation that returned. *)
Tactic Notation "step" hyp(H) "as" ident(a) ident(st) ident(Hm) :=
  apply mbind_ok in H as (a & st & Hm & H).

(** A pure step: it returns [a] and leaves the state alone. *)
Tactic Notation "pure_step" hyp(H) "as" ident(a) ident(Hm) :=
  let st := fresh "st" in
  apply mbind_ok in H as (a & st & Hm & H);
  first [ apply lift_ok in Hm as [Hm ->] | apply load_ok in Hm as [Hm ->] ].

Lemma deref_alloc d st : deref (heap (alloc d st)) (next st) = d.
Proof. unfold deref, alloc. simpl. rewrite lookup_insert_eq. reflexivity. Qed.

(** A copy followed by a unification on the copy adds one dictionary to
    the store and touches nothing else. *)
Lemma copy_unify_ok fuel t1 t2 b c r st st1 st2 :
  deepcopy b st = Ok (c, st1) ->
  unify_at fuel t1 t2 c st1 = Ok (r, st2) ->
  exists d' ok,
    unify fuel t1 t2 (deref (heap st) b) = Ok (d', ok) /\
    c = next st /\
    r = (if ok then Some c else None) /\
    st2 = alloc d' st.
Proof.
  intros Hc Hu. apply deepcopy_ok in Hc as [-> ->].
  apply unify_at_ok in Hu as (d' & ok & Hu & -> & ->).
  rewrite deref_alloc in Hu.
  exists d', ok. repeat split; try assumption.
  unfold alloc. simpl. rewrite insert_insert_eq. reflexivity.
Qed.

(** ** Solutions and the store *)

(** Every dictionary of [st] is still there in [st'], with the same
    contents. *)
Definition unchanged (st st' : state) : Prop :=
  (next st <= next st')%positive /\
  forall r : ref, (r < next st)%positive -> heap st' !! r = heap st !! r.

Definition fresh_in (st st' : state) (r : ref) : Prop :=
  (next st <= r < next st')%positive.

(** What a solver step may do: add dictionaries to the store, and return
    distinct references that are new or among those it was allowed to
    [keep]. *)
Definition framed (keep : ref -> Prop) (st : state) (sols : list ref)
    (st' : state) : Prop :=
  unchanged st st' /\
  NoDup sols /\
  Forall (fun r => keep r \/ fresh_in st st' r) sols.

Lemma unchanged_refl st : unchanged st st.
Proof. split; [lia|reflexivity]. Qed.

Lemma unchanged_trans st1 st2 st3 :
  unchanged st1 st2 -> unchanged st2 st3 -> unchanged st1 st3.
Proof.
  intros [Hn1 H1] [Hn2 H2]. split; [lia|].
  intros r Hr. rewrite H2 by lia. apply H1, Hr.
Qed.

Lemma unchanged_alloc d st : unchanged st (alloc d st).
Proof.
  split; simpl; [lia|]. intros r Hr. apply lookup_insert_ne. lia.
Qed.

Lemma unchanged_same_heap st st' :
  heap st' = heap st -> next st' = next st -> unchanged st st'.
Proof. intros Hh Hn. split; [lia|]. intros r _. rewrite Hh. reflexivity. Qed.

Lemma deref_unchanged st st' r :
  unchanged st st' -> (r < next st)%positive ->
  deref (heap st') r = deref (heap st) r.
Proof. intros [_ H] Hr. unfold deref. rewrite H by exact Hr. reflexivity. Qed.

Lemma framed_nil keep st : framed keep st [] st.
Proof. split; [apply unchanged_refl|]. split; constructor. Qed.

Lemma framed_weaken (keep keep' : ref -> Prop) st sols st' :
  (forall r, keep r -> keep' r) ->
  framed keep st sols st' -> framed keep' st sols st'.
Proof.
  intros Hk (Hp & Hn & Hf). split; [exact Hp|]. split; [exact Hn|].
  eapply Forall_impl; [exact Hf|]. intros r [H|H]; auto.
Qed.

Lemma framed_trans_l keep st st1 sols st' :
  unchanged st st1 ->
  framed keep st1 sols st' -> framed keep st sols st'.
Proof.
  intros Hp (Hp' & Hn & Hf). split; [|split; [exact Hn|]].
  - eapply unchanged_trans; eassumption.
  - eapply Forall_impl; [exact Hf|]. intros r [H|[H1 H2]]; auto.
    right. destruct Hp as [Hp _]. split; [lia|exact H2].
Qed.

Lemma framed_single_keep (keep : ref -> Prop) st r :
  keep r -> framed keep st [r] st.
Proof.
  intros Hk. split; [apply unchanged_refl|]. split; [apply NoDup_singleton|].
  constructor; [left; exact Hk | constructor].
Qed.

Lemma framed_option_alloc keep st d (ok : bool) :
  framed keep st (option_list (if ok then Some (next st) else None))
    (alloc d st).
Proof.
  split; [apply unchanged_alloc|]. split.
  - destruct ok; simpl; [apply NoDup_singleton | constructor].
  - destruct ok; simpl; [|constructor].
    constructor; [|constructor]. right. unfold fresh_in. simpl. lia.
Qed.

Section ForEachFrame.
Context {A : Type} (f : A -> M (list ref)).

(** Every iteration returns new references only. *)
Lemma for_each_fresh (l : list A) :
  (forall x st sols st', x ∈ l -> f x st = Ok (sols, st') ->
     framed (fun _ => False) st sols st') ->
  forall st sols st', for_each f l st = Ok (sols, st') ->
    framed (fun _ => False) st sols st'.
Proof.
  induction l as [|x l IH]; intros Hf st sols st' H; simpl in H.
  - apply mret_ok in H as [-> ->]. apply framed_nil.
  - step H as ys st1 Hm. step H as rest st2 Hm0. apply mret_ok in H as [-> ->].
    apply Hf in Hm; [|left].
    apply IH in Hm0; [|intros; eapply Hf; [right|]; eassumption].
    destruct Hm as (Hp1 & Hn1 & Hf1), Hm0 as (Hp2 & Hn2 & Hf2).
    pose proof (proj1 Hp1). pose proof (proj1 Hp2).
    split; [eapply unchanged_trans; eassumption|]. split.
    + apply NoDup_app. repeat split; try assumption.
      intros r Hr1 Hr2.
      rewrite Forall_forall in Hf1, Hf2.
      destruct (Hf1 r Hr1) as [[]|[? ?]], (Hf2 r Hr2) as [[]|[? ?]]. lia.
    + apply Forall_app. split; (eapply Forall_impl; [eassumption|]);
        intros r [[]|[? ?]]; right; split; lia.
Qed.
End ForEachFrame.

Section ForEachKeep.
Context (f : ref -> M (list ref)).

(** Every iteration returns its own argument or new references. *)
Lemma for_each_keep (l : list ref) :
  (forall x st sols st', x ∈ l -> (x < next st)%positive ->
     f x st = Ok (sols, st') -> framed (eq x) st sols st') ->
  forall st sols st',
    NoDup l -> Forall (fun x => (x < next st)%positive) l ->
    for_each f l st = Ok (sols, st') ->
    framed (fun r => r ∈ l) st sols st'.
Proof.
  induction l as [|x l IH]; intros Hf st sols st' Hnd Hval H; simpl in H.
  - apply mret_ok in H as [-> ->]. apply framed_nil.
  - step H as ys st1 Hm. step H as rest st2 Hm0. apply mret_ok in H as [-> ->].
    apply NoDup_cons in Hnd as [Hx Hnd].
    apply Forall_cons in Hval as [Hxv Hval].
    apply Hf in Hm; [|left|assumption].
    destruct Hm as (Hp1 & Hn1 & Hf1).
    pose proof (proj1 Hp1) as Hl1.
    apply IH in Hm0; try assumption.
    2:{ intros; eapply Hf; [right| |]; eassumption. }
    2:{ eapply Forall_impl; [exact Hval|]. simpl. intros; lia. }
    destruct Hm0 as (Hp2 & Hn2 & Hf2).
    pose proof (proj1 Hp2) as Hl2.
    rewrite Forall_forall in Hf1, Hf2, Hval.
    split; [eapply unchanged_trans; eassumption|]. split.
    + apply NoDup_app. repeat split; try assumption.
      intros r Hr1 Hr2.
      destruct (Hf1 r Hr1) as [Heq|[? ?]], (Hf2 r Hr2) as [Hin|[? ?]].
      * subst r. contradiction.
      * subst r. lia.
      * apply Hval in Hin. lia.
      * lia.
    + apply Forall_app. split; apply Forall_forall; intros r Hr.
      * destruct (Hf1 r Hr) as [Heq|[? ?]]; [left; subst r; left|right; split; lia].
      * destruct (Hf2 r Hr) as [Hin|[? ?]]; [left; right; exact Hin|right; split; lia].
Qed.
End ForEachKeep.

Lemma for_each_pure {A B} (f : A -> M (list B)) (l : list A) :
  (forall x st r st', f x st = Ok (r, st') -> st' = st) ->
  forall st r st', for_each f l st = Ok (r, st') -> st' = st.
Proof.
  intros Hf. induction l as [|x l IH]; intros st r st' H; simpl in H.
  - apply mret_ok in H as [_ ->]. reflexivity.
  - step H as ys st1 H1. step H as rest st2 H2. apply mret_ok in H as [_ ->].
    apply Hf in H1. apply IH in H2. congruence.
Qed.

Lemma solve_equals_framed fuel args b st sols st' :
  solve_equals fuel args b st = Ok (sols, st') -> framed (eq b) st sols st'.
Proof.
  unfold solve_equals. intros H. pure_step H as n Hn.
  destruct (negb (n =? 2)).
  - apply mret_ok in H as [-> ->]. apply framed_nil.
  - pure_step H as a0 Ha0. pure_step H as a1 Ha1.
    step H as c st1 Hc. step H as r st2 Hu. apply mret_ok in H as [-> ->].
    destruct (copy_unify_ok _ _ _ _ _ _ _ _ _ Hc Hu)
      as (d' & ok & _ & -> & -> & ->).
    apply framed_option_alloc.
Qed.

Lemma solve_greater_unchanged args b st sols st' :
  solve_greater args b st = Ok (sols, st') ->
  st' = st /\ (sols = [] \/ sols = [b]).
Proof.
  unfold solve_greater. intros H. pure_step H as n Hn.
  destruct (negb (n =? 2)).
  - apply mret_ok in H as [-> ->]. auto.
  - pure_step H as a0 Ha0. pure_step H as d Hd. pure_step H as l Hl.
    pure_step H as a1 Ha1. pure_step H as d' Hd'. pure_step H as r Hr.
    destruct (is_number l) as [zl|], (is_number r) as [zr|];
      try (apply mret_ok in H as [-> ->]; auto).
    destruct (zr <? zl)%Z; apply mret_ok in H as [-> ->]; auto.
Qed.

Lemma solve_writeln_heap args b st sols st' :
  solve_writeln args b st = Ok (sols, st') ->
  unchanged st st' /\ (sols = [] \/ sols = [b]).
Proof.
  unfold solve_writeln. intros H. pure_step H as n Hn.
  destruct (negb (n =? 1)).
  - apply mret_ok in H as [-> ->]. split; [apply unchanged_refl|auto].
  - pure_step H as a0 Ha0. pure_step H as d Hd. pure_step H as t Ht.
    step H as u st1 Hp. unfold print in Hp. injection Hp as _ <-.
    apply mret_ok in H as [-> ->].
    split; [apply unchanged_same_heap; reflexivity|auto].
Qed.

Lemma framed_at_most_keep b st sols st' :
  unchanged st st' -> sols = [] \/ sols = [b] ->
  framed (eq b) st sols st'.
Proof.
  intros Hh [->| ->]; (split; [exact Hh|]); split.
  - constructor.
  - constructor.
  - apply NoDup_singleton.
  - constructor; [left; reflexivity|constructor].
Qed.

Lemma framed_compose b st fs st1 sols st' :
  framed (eq b) st fs st1 ->
  framed (fun r => r ∈ fs) st1 sols st' ->
  framed (eq b) st sols st'.
Proof.
  intros (Hp1 & Hn1 & Hf1) (Hp2 & Hn2 & Hf2).
  pose proof (proj1 Hp1). pose proof (proj1 Hp2).
  rewrite Forall_forall in Hf1.
  split; [eapply unchanged_trans; eassumption|]. split; [exact Hn2|].
  eapply Forall_impl; [exact Hf2|]. intros r [Hin|[? ?]].
  - destruct (Hf1 r Hin) as [->|[? ?]]; [left; reflexivity|right; split; lia].
  - right. split; lia.
Qed.

Lemma framed_valid b st fs st1 :
  (b < next st)%positive -> framed (eq b) st fs st1 ->
  Forall (fun x => (x < next st1)%positive) fs.
Proof.
  intros Hb (Hp & _ & Hf). pose proof (proj1 Hp).
  eapply Forall_impl; [exact Hf|]. intros r [<-|[? ?]]; simpl; lia.
Qed.

Section Frame.
Variable randint : nat -> Z.
Variable self : knowledge_base.

Let goal_ok (fuel : nat) : Prop :=
  forall goal b st sols st',
    solve_goal randint self fuel goal b st = Ok (sols, st') ->
    framed (fun _ => False) st sols st'.

Let body_ok (fuel : nat) : Prop :=
  forall body b st sols st',
    (b < next st)%positive ->
    solve_body randint self fuel body b st = Ok (sols, st') ->
    framed (eq b) st sols st'.

Let builtin_ok (fuel : nat) : Prop :=
  forall goal b st sols st',
    solve_builtin randint self fuel goal b st = Ok (sols, st') ->
    framed (eq b) st sols st'.

Let findall_ok (fuel : nat) : Prop :=
  forall args b st sols st',
    solve_findall randint self fuel args b st = Ok (sols, st') ->
    framed (eq b) st sols st'.

Let not_ok (fuel : nat) : Prop :=
  forall args b st sols st',
    solve_not randint self fuel args b st = Ok (sols, st') ->
    framed (eq b) st sols st'.

Lemma fact_attempt_framed fuel goal fact b st sols st' :
  mbind (deepcopy b) (fun c =>
    mbind (unify_at fuel goal fact c) (fun result_bindings =>
      mret (option_list result_bindings))) st = Ok (sols, st') ->
  framed (fun _ => False) st sols st'.
Proof.
  intros H. step H as c st1 Hc. step H as r st2 Hu.
  apply mret_ok in H as [-> ->].
  destruct (copy_unify_ok _ _ _ _ _ _ _ _ _ Hc Hu)
    as (d' & ok & _ & -> & -> & ->).
  apply framed_option_alloc.
Qed.

(** A solver step run on a new copy [c] of the bindings: what it keeps
    ([c] itself) is new for the caller. *)
Lemma framed_on_copy st d sols st' :
  framed (eq (next st)) (alloc d st) sols st' ->
  framed (fun _ => False) st sols st'.
Proof.
  intros (Hp & Hn & Hfa).
  pose proof (proj1 Hp) as Hl. simpl in Hl.
  split; [|split; [exact Hn|]].
  - eapply unchanged_trans; [apply unchanged_alloc | exact Hp].
  - eapply Forall_impl; [exact Hfa|]. intros x Hx. right.
    unfold fresh_in in *. simpl in Hx.
    destruct Hx as [<-|Hx]; lia.
Qed.

Lemma solve_goal_step fuel : body_ok fuel -> goal_ok (S fuel).
Proof.
  intros IHb goal b st sols st' H. simpl in H.
  step H as s1 st1 H1. step H as s2 st2 H2. apply mret_ok in H as [-> ->].
  apply for_each_fresh in H1.
  2:{ intros fact s sl s' _ Hf. eapply fact_attempt_framed, Hf. }
  apply for_each_fresh in H2.
  2:{ intros r s sl s' _ Hf.
      step Hf as rh sa Hrh. step Hf as rb sb Hrb.
      step Hf as c sc Hc. step Hf as res sd Hu.
      apply rename_variables_ok in Hrh as [_ ->].
      apply rename_variables_ok in Hrb as [_ ->].
      destruct (copy_unify_ok _ _ _ _ _ _ _ _ _ Hc Hu)
        as (d' & ok & _ & -> & -> & ->). simpl in *.
      set (sr := State (heap s) (next s) (S (S (draws s))) (stdout s)) in *.
      assert (Hsr : unchanged s sr) by (apply unchanged_same_heap; reflexivity).
      eapply framed_trans_l; [exact Hsr|].
      destruct ok.
      - apply IHb in Hf; [|simpl; lia].
        eapply framed_on_copy, Hf.
      - apply mret_ok in Hf as [-> ->].
        split; [apply unchanged_alloc|]. split; constructor. }
  destruct H1 as (Hp1 & Hn1 & Hf1), H2 as (Hp2 & Hn2 & Hf2).
  pose proof (proj1 Hp1). pose proof (proj1 Hp2).
  rewrite Forall_forall in Hf1, Hf2.
  split; [eapply unchanged_trans; eassumption|]. split.
  - apply NoDup_app. repeat split; try assumption.
    intros r Hr1 Hr2.
    destruct (Hf1 r Hr1) as [[]|[? ?]], (Hf2 r Hr2) as [[]|[? ?]]. lia.
  - apply Forall_app. split; apply Forall_forall; intros r Hr.
    + destruct (Hf1 r Hr) as [[]|[? ?]]. right. split; lia.
    + destruct (Hf2 r Hr) as [[]|[? ?]]. right. split; lia.
Qed.

Lemma solve_body_step fuel :
  goal_ok fuel -> builtin_ok fuel -> body_ok fuel -> body_ok (S fuel).
Proof.
  intros IHg IHbi IHb body b st sols st' Hb H. simpl in H.
  destruct (negb (py_truthy body)).
  { apply mret_ok in H as [-> ->]. apply framed_single_keep. reflexivity. }
  destruct body as [a|[|first_goal rest_goals]];
    try (apply mret_ok in H as [-> ->]; apply framed_nil).
  step H as fs st1 H1.
  assert (Hfs : framed (eq b) st fs st1).
  { destruct (is_builtin_predicate first_goal).
    - eapply IHbi, H1.
    - apply (framed_weaken (fun _ => False)); [intros r []|].
      eapply IHg, H1. }
  eapply framed_compose; [exact Hfs|].
  eapply for_each_keep; [| |eapply framed_valid; eassumption|exact H].
  - intros x s sl s' _ Hx Hf.
    destruct rest_goals.
    + apply mret_ok in Hf as [-> ->]. apply framed_single_keep. reflexivity.
    + eapply IHb; eassumption.
  - apply Hfs.
Qed.

Lemma solve_builtin_step fuel :
  findall_ok fuel -> not_ok fuel -> builtin_ok (S fuel).
Proof.
  intros IHf IHn goal b st sols st' H. simpl in H.
  destruct goal as [a|[|goal0 [|goal1 rest]]];
    try (apply mret_ok in H as [-> ->]; apply framed_nil).
  pure_step H as pred_name Hp.
  destruct (name_is pred_name "findall"); [eapply IHf, H|].
  destruct (name_is pred_name "="); [eapply solve_equals_framed, H|].
  destruct (name_is pred_name ">").
  { apply solve_greater_unchanged in H as [-> Hs].
    apply framed_at_most_keep; [apply unchanged_refl|exact Hs]. }
  destruct (name_is pred_name "not"); [eapply IHn, H|].
  destruct (name_is pred_name "writeln").
  { apply solve_writeln_heap in H as [Hh Hs].
    apply framed_at_most_keep; [exact Hh|exact Hs]. }
  apply mret_ok in H as [-> ->]. apply framed_nil.
Qed.

Lemma solve_not_step fuel : goal_ok fuel -> not_ok (S fuel).
Proof.
  intros IHg args b st sols st' H. simpl in H.
  pure_step H as n Hn.
  destruct (negb (n =? 1)).
  { apply mret_ok in H as [-> ->]. apply framed_nil. }
  pure_step H as goal Hgoal.
  step H as c st1 Hc. apply deepcopy_ok in Hc as [-> ->].
  step H as solutions st2 Hs. apply IHg in Hs as (Hp & _ & _).
  assert (Hp' : unchanged st st2).
  { eapply unchanged_trans; [apply unchanged_alloc | exact Hp]. }
  destruct solutions; apply mret_ok in H as [-> ->];
    apply framed_at_most_keep; auto.
Qed.

Lemma solve_findall_step fuel : body_ok fuel -> findall_ok (S fuel).
Proof.
  intros IHb args b st sols st' H. simpl in H.
  pure_step H as n Hn.
  destruct (negb (n =? 3)).
  { apply mret_ok in H as [-> ->]. apply framed_nil. }
  pure_step H as template Ht. pure_step H as goal_list Hg.
  pure_step H as result_var Hr.
  destruct goal_list as [a|gl];
    [apply mret_ok in H as [-> ->]; apply framed_nil|].
  step H as c st1 Hc. apply deepcopy_ok in Hc as [-> ->].
  step H as goal_solutions st2 Hs.
  apply IHb in Hs as (Hp & _ & _); [|simpl; lia].
  assert (Hp' : unchanged st st2).
  { eapply unchanged_trans; [apply unchanged_alloc | exact Hp]. }
  step H as results st3 Hres.
  apply for_each_pure in Hres as ->.
  2:{ intros x s r s' Hx. pure_step Hx as d Hd. pure_step Hx as t Hsub.
      apply mret_ok in Hx as [_ ->]. reflexivity. }
  destruct (get_variable_name result_var) as [var_name|].
  - step H as nb st4 Hnb. apply deepcopy_ok in Hnb as [-> ->].
    pure_step H as k Hk. pure_step H as d Hd.
    step H as u st5 Hst. apply store_ok in Hst as ->.
    apply mret_ok in H as [-> ->]. simpl.
    rewrite insert_insert_eq.
    eapply framed_trans_l; [exact Hp'|].
    apply (framed_option_alloc (eq b) st2 _ true).
  - step H as c' st4 Hc'. step H as r st5 Hu.
    apply mret_ok in H as [-> ->].
    destruct (copy_unify_ok _ _ _ _ _ _ _ _ _ Hc' Hu)
      as (d' & ok & _ & -> & -> & ->).
    eapply framed_trans_l; [exact Hp'|]. apply framed_option_alloc.
Qed.

(** No solver step changes a dictionary that existed when it was
    called, and the solutions it returns are distinct references: new
    ones, or the binding set it was given. *)
Lemma solve_frame fuel :
  goal_ok fuel /\ body_ok fuel /\ builtin_ok fuel /\ findall_ok fuel /\
  not_ok fuel.
Proof.
  induction fuel as [|fuel (IHg & IHb & IHbi & IHf & IHn)].
  - split; [|split; [|split; [|split]]];
      intros ? ? ? ? ? H; try intros H'; discriminate.
  - split; [|split; [|split; [|split]]].
    + apply solve_goal_step, IHb.
    + apply solve_body_step; assumption.
    + apply solve_builtin_step; assumption.
    + apply solve_findall_step, IHb.
    + apply solve_not_step, IHg.
Qed.
End Frame.

(** ** Binding sets are never shared between branches *)

(** C8: [solve_goal] leaves the binding set it is given unchanged, as it
    does every dictionary that existed before the call: each fact
    attempt, rule attempt, [findall] sub-goal and [not] probe works on a
    deep copy.  The solutions it returns are pairwise distinct
    dictionaries, all created during the call, so none of them is the
    caller's binding set or another solution. *)
Theorem solve_goal_leaves_bindings_unchanged
    randint self fuel goal (b : ref) st sols st' :
  (b < next st)%positive ->
  solve_goal randint self fuel goal b st = Ok (sols, st') ->
  heap st' !! b = heap st !! b /\
  (forall r : ref, (r < next st)%positive -> heap st' !! r = heap st !! r) /\
  NoDup sols /\
  Forall (fun s => s <> b /\ (next st <= s < next st')%positive) sols.
Proof.
  intros Hb H.
  destruct (solve_frame randint self fuel) as (Hg & _).
  apply Hg in H as ([_ Hold] & Hn & Hf).
  split; [apply Hold, Hb|]. split; [exact Hold|]. split; [exact Hn|].
  eapply Forall_impl; [exact Hf|]. intros s [[]|[H1 H2]].
  split; [lia|split; assumption].
Qed.

Lemma solve_goal_leaves_bindings_unchanged_witness :
  exists sols st',
    solve_goal Family.distinct_draws Tiny.self 6 Tiny.goal 1 Tiny.st0
      = Ok (sols, st') /\
    length sols = 2 /\
    heap st' !! 1%positive = heap Tiny.st0 !! 1%positive /\
    NoDup sols.
Proof.
  eexists _, _. split; [vm_compute; reflexivity|]. split; [reflexivity|].
  assert (Hb : (1 < next Tiny.st0)%positive) by (simpl; lia).
  pose proof (solve_goal_leaves_bindings_unchanged
                Family.distinct_draws Tiny.self 6 Tiny.goal 1 Tiny.st0 _ _
                Hb eq_refl) as (H0 & _ & Hn & _).
  split; [exact H0 | exact Hn].
Defined.

(** ** Negation as failure *)

(** C4: [not(G)] runs [solve_goal] for [G] on a private copy of the
    binding set [b].  If that call returns no solution, [not(G)] returns
    exactly [b] as its single solution, if it returns some solution,
    [not(G)] returns none: the two outcomes exclude each other and one of
    them occurs.  In both cases [b] is left as it was. *)
Theorem solve_not_complementary randint self fuel goal (b : ref) st sols st' :
  (b < next st)%positive ->
  solve_goal randint self fuel goal (next st) (alloc (deref (heap st) b) st)
    = Ok (sols, st') ->
  (sols = [] ->
     solve_not randint self (S fuel) (PList [goal]) b st = Ok ([b], st')) /\
  (sols <> [] ->
     solve_not randint self (S fuel) (PList [goal]) b st = Ok ([], st')) /\
  heap st' !! b = heap st !! b.
Proof.
  intros Hb H.
  assert (E : solve_not randint self (S fuel) (PList [goal]) b st =
              Ok (match sols with [] => [b] | _ :: _ => [] end, st')).
  { simpl. unfold mbind, lift, deepcopy. simpl. rewrite H.
    destruct sols; reflexivity. }
  split; [intros ->; exact E|]. split.
  - intros Hne. destruct sols; [contradiction|exact E].
  - destruct (solve_frame randint self fuel) as (Hg & _).
    apply Hg in H as (Hp & _ & _).
    apply (unchanged_trans _ _ _ (unchanged_alloc _ st) Hp), Hb.
Qed.

Lemma solve_not_complementary_witness :
  exists st',
    solve_not Family.distinct_draws Tiny.self 7
      (PList [Family.male "jim"]) 1 Tiny.st0 = Ok ([1%positive], st') /\
    heap st' !! 1%positive = heap Tiny.st0 !! 1%positive.
Proof.
  assert (Hb : (1 < next Tiny.st0)%positive) by (simpl; lia).
  eexists.
  pose proof (solve_not_complementary Family.distinct_draws Tiny.self 6
                (Family.male "jim") 1 Tiny.st0 [] _ Hb
                ltac:(vm_compute; reflexivity)) as (Hs & _ & H0).
  split; [apply Hs; reflexivity | exact H0].
Defined.

(** ** Numeric comparison *)

Lemma mapM_total {A B} (f : A -> outcome B) (l : list A) :
  Forall (fun x => exists y, f x = Ok y) l -> exists ys, mapM f l = Ok ys.
Proof.
  induction 1 as [|x l [y Hy] _ [ys Hys]]; simpl.
  - eexists; reflexivity.
  - rewrite Hy, Hys. eexists; reflexivity.
Qed.

Arguments get_variable_name : simpl never.

Lemma substitute_variables_total t d :
  hashable_names t = true -> exists t', substitute_variables t d = Ok t'.
Proof.
  induction t as [a|items IH] using term_induction; intros Hh.
  - eexists; reflexivity.
  - simpl in *. destruct (get_variable_name (PList items)) as [[a|l]|].
    + simpl. destruct (dict_get a d); eexists; reflexivity.
    + discriminate.
    + destruct (mapM_total (fun s => substitute_variables s d) items) as [ys ->].
      * rewrite forallb_forall in Hh. apply Forall_forall.
        rewrite Forall_forall in IH. intros x Hx.
        apply IH; [exact Hx|]. apply Hh, list_elem_of_In, Hx.
      * eexists; reflexivity.
Qed.

(** C6: [>/2] substitutes both arguments (one lookup per variable), and
    returns the unchanged binding set as its single solution exactly when
    both results are numbers and the left one is strictly greater.  In every
    other case it returns no solution.  It never raises, and changes
    nothing in the state. *)
Theorem solve_greater_spec x y (b : ref) st :
  hashable_names x = true -> hashable_names y = true ->
  exists l r,
    substitute_variables x (deref (heap st) b) = Ok l /\
    substitute_variables y (deref (heap st) b) = Ok r /\
    solve_greater (PList [x; y]) b st =
      Ok (if numeric_greater l r then [b] else [], st) /\
    (numeric_greater l r = true <->
     exists zl zr, is_number l = Some zl /\ is_number r = Some zr /\ (zr < zl)%Z).
Proof.
  intros Hx Hy.
  destruct (substitute_variables_total x (deref (heap st) b) Hx) as [l Hl].
  destruct (substitute_variables_total y (deref (heap st) b) Hy) as [r Hr].
  exists l, r. split; [exact Hl|]. split; [exact Hr|]. split.
  - unfold solve_greater, mbind, lift, load, py_len, py_getitem. simpl.
    rewrite Hl, Hr. unfold numeric_greater.
    destruct (is_number l), (is_number r); try reflexivity.
    destruct (_ <? _)%Z; reflexivity.
  - unfold numeric_greater. split.
    + destruct (is_number l) as [zl|], (is_number r) as [zr|]; try discriminate.
      intros H. exists zl, zr. repeat split. apply Z.ltb_lt, H.
    + intros (zl & zr & -> & -> & H). apply Z.ltb_lt, H.
Qed.

Lemma solve_greater_spec_witness :
  solve_greater (PList [Family.num 5; Family.num 3]) 1 Tiny.st0
    = Ok ([1%positive], Tiny.st0) /\
  solve_greater (PList [Family.str "a"; Family.num 3]) 1 Tiny.st0
    = Ok ([], Tiny.st0).
Proof.
  split.
  - destruct (solve_greater_spec (Family.num 5) (Family.num 3) 1 Tiny.st0
                eq_refl eq_refl) as (l & r & Hl & Hr & H & _).
    injection Hl as <-. injection Hr as <-. exact H.
  - destruct (solve_greater_spec (Family.str "a") (Family.num 3) 1 Tiny.st0
                eq_refl eq_refl) as (l & r & Hl & Hr & H & _).
    injection Hl as <-. injection Hr as <-. exact H.
Defined.

(** ** Substitution and chain resolution *)

Lemma mapM_id {A} (f : A -> outcome A) (l : list A) :
  Forall (fun x => f x = Ok x) l -> mapM f l = Ok l.
Proof.
  induction 1 as [|x l Hx _ IH]; simpl; [reflexivity|].
  rewrite Hx, IH. reflexivity.
Qed.

Lemma height_item x items :
  x ∈ items -> height x < height (PList items).
Proof.
  simpl. induction 1 as [x l|x y l _ IH]; simpl; lia.
Qed.

Lemma resolve_ground t b :
  ground t = true ->
  forall fuel, height t < fuel -> resolve_variable_chains fuel t b = Ok t.
Proof.
  induction t as [a|items IH] using term_induction;
    intros Hg [|fuel] Hf; try lia; [reflexivity|].
  simpl in Hg. simpl resolve_variable_chains.
  destruct (get_variable_name (PList items)); [discriminate|].
  rewrite mapM_id; [reflexivity|].
  rewrite forallb_forall in Hg. rewrite Forall_forall in IH.
  apply Forall_forall. intros x Hx. apply IH; [exact Hx| |].
  - apply Hg, list_elem_of_In, Hx.
  - pose proof (height_item x items Hx). lia.
Qed.

Lemma get_variable_name_var_ref x :
  get_variable_name (PList [Atom (PStr "v"); Atom x]) = Some (Atom x).
Proof. reflexivity. Qed.

Lemma substitute_var_ref x b :
  substitute_variables (var_ref x) b =
    Ok (match dict_get x b with Some v => v | None => var_ref x end).
Proof.
  unfold var_ref. simpl. unfold get_variable_name. simpl.
  destruct (dict_get x b); reflexivity.
Qed.

Lemma resolve_var_ref fuel x b :
  resolve_variable_chains (S fuel) (var_ref x) b =
    match dict_get x b with
    | Some value => resolve_variable_chains fuel value b
    | None => Ok (var_ref x)
    end.
Proof.
  reflexivity.
Qed.

(** C3: with [x] bound to the variable [y] and [y] bound to a ground term
    [t], [substitute_variables] on the reference to [x] returns the
    reference to [y] (one lookup, the replacement is not substituted
    again), while [resolve_variable_chains] follows the chain and returns
    [t].  On a list that is not a variable reference both recurse into the
    elements. *)
Theorem substitute_shallow_resolve_deep (b : dict) (x y : atom) (t : term) :
  dict_get x b = Some (var_ref y) ->
  dict_get y b = Some t ->
  ground t = true ->
  substitute_variables (var_ref x) b = Ok (var_ref y) /\
  (forall fuel, height t + 3 <= fuel ->
     resolve_variable_chains fuel (var_ref x) b = Ok t) /\
  (forall items, get_variable_name (PList items) = None ->
     substitute_variables (PList items) b =
       obind (mapM (fun s => substitute_variables s b) items)
             (fun items' => Ok (PList items'))) /\
  (forall fuel items, get_variable_name (PList items) = None ->
     resolve_variable_chains (S fuel) (PList items) b =
       obind (mapM (fun s => resolve_variable_chains fuel s b) items)
             (fun items' => Ok (PList items'))).
Proof.
  intros Hx Hy Hg. split; [|split; [|split]].
  - rewrite substitute_var_ref, Hx. reflexivity.
  - intros [|[|fuel]] Hf; try lia.
    rewrite resolve_var_ref, Hx, resolve_var_ref, Hy.
    apply resolve_ground; [exact Hg|lia].
  - intros items Hn. simpl. rewrite Hn. reflexivity.
  - intros fuel items Hn. simpl. rewrite Hn. reflexivity.
Qed.

Lemma substitute_shallow_resolve_deep_witness :
  substitute_variables (var_ref (PStr "x")) Tiny.chain
    = Ok (var_ref (PStr "y")) /\
  resolve_variable_chains 4 (var_ref (PStr "x")) Tiny.chain
    = Ok (Family.pair "peter" "jim").
Proof.
  destruct (substitute_shallow_resolve_deep Tiny.chain (PStr "x") (PStr "y")
              (Family.pair "peter" "jim") eq_refl eq_refl eq_refl)
    as (Hs & Hr & _).
  split; [exact Hs|]. apply Hr. simpl. lia.
Defined.

(** ** Unification of lists *)

Lemma unify_items_threaded u l1 l2 b b' :
  threaded u l1 l2 b b' -> unify_items u l1 l2 b = Ok (b', true).
Proof.
  induction 1 as [b|x y l1 l2 b b1 b2 Hu _ IH]; simpl; [reflexivity|].
  rewrite Hu. exact IH.
Qed.

Lemma unify_items_first_failure u p1 p2 x y r1 r2 b b1 b2 :
  threaded u p1 p2 b b1 ->
  u x y b1 = Ok (b2, false) ->
  unify_items u (p1 ++ x :: r1) (p2 ++ y :: r2) b = Ok (b2, false).
Proof.
  induction 1 as [b|x' y' l1 l2 b b1 b3 Hu _ IH]; simpl; intros Hf.
  - rewrite Hf. reflexivity.
  - rewrite Hu. apply IH, Hf.
Qed.

Lemma threaded_length u l1 l2 b b' :
  threaded u l1 l2 b b' -> length l1 = length l2.
Proof. induction 1; simpl; congruence. Qed.

(** C7: on two lists that are not variable references, [unify] fails when
    the lengths differ.  With equal lengths it unifies the elements pairwise
    from left to right, each pair starting from the bindings left by the
    previous one: it succeeds with the last bindings when every pair
    unifies, and fails at the first pair that does not, without looking at
    the pairs after it. *)
Theorem unify_compounds fuel l1 l2 b :
  get_variable_name (PList l1) = None ->
  get_variable_name (PList l2) = None ->
  (length l1 <> length l2 ->
     unify (S fuel) (PList l1) (PList l2) b = Ok (b, false)) /\
  (forall b', threaded (unify fuel) l1 l2 b b' ->
     unify (S fuel) (PList l1) (PList l2) b = Ok (b', true)) /\
  (forall p1 x r1 p2 y r2 b1 b2,
     l1 = p1 ++ x :: r1 -> l2 = p2 ++ y :: r2 ->
     length r1 = length r2 ->
     threaded (unify fuel) p1 p2 b b1 ->
     unify fuel x y b1 = Ok (b2, false) ->
     unify (S fuel) (PList l1) (PList l2) b = Ok (b2, false)).
Proof.
  intros H1 H2. simpl. rewrite H1, H2. split; [|split].
  - intros Hl. apply Nat.eqb_neq in Hl. rewrite Hl. reflexivity.
  - intros b' Ht. pose proof (threaded_length _ _ _ _ _ Ht) as Hl.
    apply Nat.eqb_eq in Hl. rewrite Hl. simpl.
    apply unify_items_threaded, Ht.
  - intros p1 x r1 p2 y r2 b1 b2 -> -> Hr Ht Hf.
    pose proof (threaded_length _ _ _ _ _ Ht) as Hp.
    assert (Hl : (length (p1 ++ x :: r1) =? length (p2 ++ y :: r2)) = true).
    { apply Nat.eqb_eq. rewrite !length_app. simpl. lia. }
    rewrite Hl. simpl. eapply unify_items_first_failure; eassumption.
Qed.

Lemma unify_compounds_witness :
  unify 3 (PList [Family.num 1; Family.num 2])
    (PList [Family.num 1; Family.num 2; Family.num 1]) [] = Ok ([], false) /\
  unify 3 (PList [var_ref (PStr "x"); Family.num 1; Family.num 1])
    (PList [Family.num 2; Family.num 2; Family.num 1]) []
    = Ok ([(PStr "x", Family.num 2)], false).
Proof.
  split.
  - apply (unify_compounds 2 [Family.num 1; Family.num 2]
             [Family.num 1; Family.num 2; Family.num 1] [] eq_refl eq_refl).
    simpl. lia.
  - destruct (unify_compounds 2
                [var_ref (PStr "x"); Family.num 1; Family.num 1]
                [Family.num 2; Family.num 2; Family.num 1] []
                eq_refl eq_refl) as (_ & _ & H).
    apply (H [var_ref (PStr "x")] (Family.num 1) [Family.num 1]
             [Family.num 2] (Family.num 2) [Family.num 1]
             [(PStr "x", Family.num 2)] [(PStr "x", Family.num 2)]);
      try reflexivity.
    eapply threaded_cons; [reflexivity|apply threaded_nil].
Defined.

(** C9: [unify] is not atomic on failure.  Unifying [[["v","x"], 1]] with
    [[5, 2]] under the empty binding set returns [None], and the binding
    set has gained the binding of [x] made for the first pair: it is not
    rolled back.  The same holds for the dictionary in the store. *)
Theorem unify_not_atomic :
  exists t1 t2 b b',
    unify 3 t1 t2 b = Ok (b', false) /\
    dict_get (PStr "x") b = None /\
    dict_get (PStr "x") b' = Some (Family.num 5) /\
    unify_at 3 t1 t2 1 (alloc b Family.initial)
      = Ok (None, alloc b' Family.initial).
Proof.
  exists (PList [var_ref (PStr "x"); Family.num 1]),
         (PList [Family.num 5; Family.num 2]),
         [], [(PStr "x", Family.num 5)].
  repeat split; reflexivity.
Qed.

(** ** The query entry point *)

(** C10: once the knowledge base is parsed and [solve_goal] has returned
    its solutions for the query, [only_ssi_test] returns the one-element
    list [[[variable, value]]].  The value is the empty list when there
    is no solution or when the first solution does not bind the variable,
    and otherwise the chain-resolved binding of the variable in the first
    solution.  The solutions after the first play no part. *)
Theorem only_ssi_test_first_solution
    randint fuel depth query kb st self predicate_info variable_info v0
    sols st' :
  parse_knowledge_base kb = Ok self ->
  py_getitem query 0 = Ok predicate_info ->
  py_getitem query 1 = Ok variable_info ->
  py_getitem variable_info 0 = Ok v0 ->
  solve_goal randint self fuel (PList [predicate_info; variable_info])
    (next st) (alloc [] st) = Ok (sols, st') ->
  match sols with
  | [] =>
      only_ssi_test randint (S fuel) depth query kb st
        = Ok (PList [PList [v0; PList []]], st')
  | solution :: _ =>
      forall name, py_getitem v0 1 = Ok (Atom name) ->
        match dict_get name (deref (heap st') solution) with
        | None =>
            only_ssi_test randint (S fuel) depth query kb st
              = Ok (PList [PList [v0; PList []]], st')
        | Some raw_value =>
            forall value,
              resolve_variable_chains fuel raw_value
                (deref (heap st') solution) = Ok value ->
              only_ssi_test randint (S fuel) depth query kb st
                = Ok (PList [PList [v0; value]], st')
        end
  end.
Proof.
  intros Hkb Hq0 Hq1 Hv0 Hs.
  unfold only_ssi_test, mbind, lift, new_dict.
  rewrite Hkb, Hq0, Hq1, Hs.
  destruct sols as [|solution rest].
  - rewrite Hv0. reflexivity.
  - intros name Hname. rewrite Hv0, Hname. simpl.
    destruct (dict_get name (deref (heap st') solution)) as [raw_value|].
    + intros value Hr. rewrite Hr. reflexivity.
    + reflexivity.
Qed.

Lemma only_ssi_test_first_solution_witness :
  exists st',
    only_ssi_test Family.distinct_draws 7 3 Tiny.goal
      [Tiny.colour "red"; Tiny.colour "blue"] Family.initial
    = Ok (PList [PList [Family.v "q"; Family.str "red"]], st').
Proof.
  eexists.
  pose proof (only_ssi_test_first_solution Family.distinct_draws 6 3
                Tiny.goal [Tiny.colour "red"; Tiny.colour "blue"]
                Family.initial _ _ _ _ _ _
                eq_refl eq_refl eq_refl eq_refl
                ltac:(vm_compute; reflexivity)) as H.
  simpl in H. specialize (H (PStr "q") eq_refl). simpl in H.
  apply (H (Family.str "red")). reflexivity.
Defined.

(** ** Dispatch of built-in predicates *)

Lemma is_str_true t lit : is_str t lit = true <-> t = Atom (PStr lit).
Proof.
  destruct t as [[s| |]|]; simpl; split; try discriminate.
  - intros H. apply String.eqb_eq in H. subst. reflexivity.
  - intros H. injection H as ->. apply String.eqb_refl.
Qed.

(** [<] is none of findall, not, =, > and writeln, yet [solve_body] hands
    the goal to the built-in library, which has no solution for it, and
    not to [solve_goal], which finds the matching fact. *)
Lemma less_than_goes_to_builtins :
  is_builtin_predicate less_goal = true /\
  solve_body Family.distinct_draws (KB [less_goal] []) 5 (PList [less_goal])
    1 Tiny.st0 = Ok ([], Tiny.st0) /\
  solve_goal Family.distinct_draws (KB [less_goal] []) 5 less_goal
    1 Tiny.st0 = Ok ([2%positive], alloc [] Tiny.st0).
Proof. repeat split; vm_compute; reflexivity. Qed.

(** C2, as the code has it: [solve_body] sends its first goal to the
    built-in library exactly when the goal is a list of at least two
    elements whose first element is [["n", name]] with [name] one of
    findall, not, =, >, < and writeln.  Every other goal goes to
    [solve_goal]. *)
Theorem solve_body_dispatch randint self :
  (forall goal,
     is_builtin_predicate goal = true <->
     exists name arg rest,
       goal = PList (PList [Atom (PStr "n"); Atom (PStr name)] :: arg :: rest) /\
       In name builtin_names) /\
  (forall fuel first_goal rest_goals b,
     solve_body randint self (S fuel) (PList (first_goal :: rest_goals)) b =
       mbind (if is_builtin_predicate first_goal
              then solve_builtin randint self fuel first_goal b
              else solve_goal randint self fuel first_goal b)
             (for_each (fun solution =>
                if py_truthy (PList rest_goals)
                then solve_body randint self fuel (PList rest_goals) solution
                else mret [solution]))).
Proof.
  split; [|reflexivity].
  intros goal. split.
  - destruct goal as [a|[|[a|[|tag [|pred_name [|x l]]]] [|arg rest]]];
      simpl; try discriminate.
    intros H. apply andb_true_iff in H as [Ht Hn].
    apply is_str_true in Ht as ->.
    destruct pred_name as [[s| |]|]; simpl in Hn; try discriminate.
    exists s, arg, rest. split; [reflexivity|].
    unfold builtin_names. simpl.
    repeat (apply orb_true_iff in Hn as [Hn|Hn]);
      apply String.eqb_eq in Hn; subst; tauto.
  - intros (name & arg & rest & -> & Hin). simpl.
    unfold builtin_names in Hin. simpl in Hin.
    destruct Hin as [<-|[<-|[<-|[<-|[<-|[<-|[]]]]]]]; reflexivity.
Qed.

(** ** findall *)

Lemma option_list_length {A} (o : option A) : length (option_list o) <= 1.
Proof. destruct o; simpl; lia. Qed.

Lemma solve_findall_at_most_one randint self fuel args b st sols st' :
  solve_findall randint self fuel args b st = Ok (sols, st') ->
  length sols <= 1.
Proof.
  destruct fuel as [|fuel]; [discriminate|]. simpl. intros H.
  pure_step H as n Hn.
  destruct (negb (n =? 3)).
  { apply mret_ok in H as [-> _]. simpl. lia. }
  pure_step H as template Ht. pure_step H as goal_list Hg.
  pure_step H as result_var Hr.
  destruct goal_list as [a|gl];
    [apply mret_ok in H as [-> _]; simpl; lia|].
  step H as c st1 Hc. step H as goal_solutions st2 Hs.
  step H as results st3 Hres.
  destruct (get_variable_name result_var) as [var_name|].
  - step H as nb st4 Hnb. pure_step H as k Hk. pure_step H as d Hd.
    step H as u st5 Hst. apply mret_ok in H as [-> _]. simpl. lia.
  - step H as c' st4 Hc'. step H as r st5 Hu.
    apply mret_ok in H as [-> _]. apply option_list_length.
Qed.

(** A goal without proof and a result argument that is not a variable:
    [findall(x, [nothing(a)], "r")] over the empty knowledge base.  The
    goal list has no solution and [findall] has none either. *)
Lemma findall_fails_on_non_variable_result :
  (exists st1,
     solve_body Family.distinct_draws Tiny.no_facts 5
       (PList Tiny.nothing_goals) 1 Tiny.st0 = Ok ([], st1)) /\
  (exists st2,
     solve_findall Family.distinct_draws Tiny.no_facts 6
       (PList [Family.str "x"; PList Tiny.nothing_goals; Family.str "r"])
       1 Tiny.st0 = Ok ([], st2)).
Proof. split; eexists; vm_compute; reflexivity. Qed.

(** C5, as the code has it: [findall] returns at most one solution.  When
    the goal list has no proof under a copy of the bindings and the result
    argument is a variable reference, [findall] succeeds with exactly one
    solution: a new copy of the bindings in which the variable is bound to
    the empty list. *)
Theorem solve_findall_spec randint self fuel (b : ref) st :
  (forall args sols st',
     solve_findall randint self fuel args b st = Ok (sols, st') ->
     length sols <= 1) /\
  (forall template goals result_var name st2,
     (b < next st)%positive ->
     get_variable_name result_var = Some (Atom name) ->
     solve_body randint self fuel (PList goals) (next st)
       (alloc (deref (heap st) b) st) = Ok ([], st2) ->
     solve_findall randint self (S fuel)
       (PList [template; PList goals; result_var]) b st
     = Ok ([next st2],
           alloc (dict_set name (PList []) (deref (heap st) b)) st2)).
Proof.
  split.
  - intros args sols st'. apply solve_findall_at_most_one.
  - intros template goals result_var name st2 Hb Hv Hs.
    simpl. unfold mbind, lift, deepcopy, load, store. simpl.
    rewrite Hs. simpl. rewrite Hv. simpl.
    destruct (solve_frame randint self fuel) as (_ & Hbody & _).
    apply Hbody in Hs as (Hp & _ & _); [|simpl; lia].
    assert (Hp' : unchanged st st2).
    { eapply unchanged_trans; [apply unchanged_alloc | exact Hp]. }
    rewrite insert_insert_eq. unfold deref at 1. rewrite lookup_insert_eq.
    simpl. rewrite (deref_unchanged _ _ _ Hp' Hb). reflexivity.
Qed.

Lemma solve_findall_spec_witness :
  solve_findall Family.distinct_draws Tiny.no_facts 6
    (PList [Family.str "x"; PList Tiny.nothing_goals; Family.v "r"])
    1 Tiny.st0
  = Ok ([3%positive], alloc [(PStr "r", PList [])] (alloc [] Tiny.st0)).
Proof.
  destruct (solve_findall_spec Family.distinct_draws Tiny.no_facts 5 1
              Tiny.st0) as (_ & H).
  assert (Hb : (1 < next Tiny.st0)%positive) by (simpl; lia).
  exact (H (Family.str "x") Tiny.nothing_goals (Family.v "r") (PStr "r")
           (alloc [] Tiny.st0) Hb eq_refl eq_refl).
Defined.

(** ** The family-tree query *)

(** Head and body of one rule application are renamed by two separate
    calls of [rename_variables], each drawing its own suffix: the head
    variable [x_1000] and the body variable [x_1001] are different
    variables, and the query variable stays bound to the head variable
    only. *)
Lemma head_and_body_renamed_apart :
  exists st',
    solve_goal Family.distinct_draws (KB [] [answer_rule]) 6
      (PList [Family.n "answer"; PList [Family.v "q"]]) 1 Tiny.st0
    = Ok ([3%positive], st') /\
    deref (heap st') 3 =
      [(PStr "q", Family.v "x_1000"); (PStr "x_1001", Family.num 1)].
Proof. eexists. split; vm_compute; reflexivity. Qed.

(** With different draws for the head and the body of the
    [older_brother] rule, the query variable stays bound to the renamed
    head variable [c_9999], and the list that [findall] binds to the body
    variable [c_1000] is not reached. *)
Lemma older_brother_result_split_draws :
  exists st',
    only_ssi_test Family.split_draws 100 3 Family.query Family.kb
      Family.initial
    = Ok (PList [PList [Family.v "result6"; Family.v "c_9999"]], st').
Proof.
  assert (H : match only_ssi_test Family.split_draws 100 3 Family.query
                      Family.kb Family.initial with
              | Ok (t, _) => Some t
              | _ => None
              end = Some (PList [PList [Family.v "result6"; Family.v "c_9999"]]))
    by (vm_compute; reflexivity).
  destruct (only_ssi_test Family.split_draws 100 3 Family.query
              Family.kb Family.initial) as [[t st']| |]; try discriminate.
  injection H as ->. exists st'. reflexivity.
Qed.

(** C1: on the knowledge base and query of [main], [only_ssi_test] does
    not return the expected list of sibling pairs.  Even when the two
    draws of every rule application agree, the result lists the renamed
    variables of the [siblings] rule instead of the names. *)
Theorem older_brother_result :
  exists st',
    only_ssi_test Family.paired_draws 100 3 Family.query Family.kb
      Family.initial = Ok (unresolved_pairs, st') /\
    unresolved_pairs <> Family.expected_result.
Proof.
  assert (H : match only_ssi_test Family.paired_draws 100 3 Family.query
                      Family.kb Family.initial with
              | Ok (t, _) => Some t
              | _ => None
              end = Some unresolved_pairs) by (vm_compute; reflexivity).
  destruct (only_ssi_test Family.paired_draws 100 3 Family.query
              Family.kb Family.initial) as [[t st']| |]; try discriminate.
  injection H as ->. exists st'. split; [reflexivity|discriminate].
Qed.

(** * Further properties of the interpreter *)

(** ** Dictionaries *)

Lemma py_eq_atom_refl a : py_eq_atom a a = true.
Proof.
  destruct a as [s|z|b]; simpl.
  - apply String.eqb_refl.
  - apply Z.eqb_refl.
  - destruct b; reflexivity.
Qed.

Lemma dict_get_set_same k v d : dict_get k (dict_set k v d) = Some v.
Proof.
  induction d as [|[k' v'] d IH]; simpl.
  - rewrite py_eq_atom_refl. reflexivity.
  - destruct (py_eq_atom k' k) eqn:E; simpl; rewrite E; [reflexivity|exact IH].
Qed.

Lemma dict_get_set_kept k0 t k v d :
  dict_get k0 d = None -> dict_get k d = Some v ->
  dict_get k (dict_set k0 t d) = Some v.
Proof.
  induction d as [|[k' v'] d IH]; simpl; [discriminate|].
  destruct (py_eq_atom k' k0) eqn:E0; [discriminate|].
  intros H0 H. simpl. destruct (py_eq_atom k' k); [exact H|].
  apply IH; assumption.
Qed.

(** ** The knowledge base *)

Lemma is_rule_clause_shape item :
  sequence_like item = true -> is_rule_clause item = Ok (rule_shape item).
Proof.
  destruct item as [[s|z|b]|l]; try discriminate; intros _.
  - unfold is_rule_clause. simpl.
    destruct s as [|c0 [|c1 [|c2 s]]]; try reflexivity.
    simpl. destruct (Ascii.eqb c2 ":"); reflexivity.
  - unfold is_rule_clause, rule_shape. simpl.
    destruct l as [|x0 [|x1 [|x2 l]]]; reflexivity.
Qed.

Lemma make_rule_shape l : make_rule (PList l) = Ok (rule_of (PList l)).
Proof.
  unfold make_rule. simpl.
  destruct l as [|x0 [|x1 [|x2 [|x3 l]]]]; reflexivity.
Qed.

(** [parse_knowledge_base] splits the clauses in two, keeping their
    order: the clauses with [":-"] at index 2 become rules, every other
    clause is stored unchanged as a fact, whatever its shape. *)
Theorem parse_knowledge_base_partition kb :
  Forall (fun item => sequence_like item = true) kb ->
  parse_knowledge_base kb =
    Ok (KB (List.filter (fun item => negb (rule_shape item)) kb)
           (map rule_of (List.filter rule_shape kb))).
Proof.
  induction 1 as [|item kb Hi _ IH]; [reflexivity|].
  simpl. rewrite (is_rule_clause_shape item Hi). simpl.
  destruct (rule_shape item) eqn:E; simpl.
  - destruct item as [a|l]; [discriminate|].
    rewrite make_rule_shape. simpl. rewrite IH. reflexivity.
  - rewrite IH. reflexivity.
Qed.

Lemma parse_knowledge_base_partition_witness :
  parse_knowledge_base
    [Tiny.colour "red";
     PList [Family.n "likes"; PList [Family.v "x"]; Family.str ":-";
            PList [Tiny.colour "red"]];
     PList [Family.n "family_test"; Family.str ":-"; PList []]]
  = Ok (KB [Tiny.colour "red";
            PList [Family.n "family_test"; Family.str ":-"; PList []]]
           [Rule (PList [Family.n "likes"; PList [Family.v "x"]])
                 (PList [Tiny.colour "red"])]).
Proof.
  apply (parse_knowledge_base_partition
           [Tiny.colour "red";
            PList [Family.n "likes"; PList [Family.v "x"]; Family.str ":-";
                   PList [Tiny.colour "red"]];
            PList [Family.n "family_test"; Family.str ":-"; PList []]]).
  repeat constructor.
Defined.

(** A clause that is a number or a boolean makes [parse_knowledge_base]
    raise [TypeError] ([len] of a number), whatever follows it. *)
Theorem parse_knowledge_base_type_error kb1 item kb2 :
  Forall (fun item => sequence_like item = true) kb1 ->
  sequence_like item = false ->
  parse_knowledge_base (kb1 ++ item :: kb2) = Raise TypeError.
Proof.
  intros H1 Hi. induction H1 as [|x kb1 Hx _ IH]; simpl.
  - destruct item as [[s|z|b]|l]; try discriminate; reflexivity.
  - rewrite (is_rule_clause_shape x Hx). simpl.
    destruct (rule_shape x) eqn:E.
    + destruct x as [a|l]; [discriminate|].
      rewrite make_rule_shape. simpl. rewrite IH. reflexivity.
    + rewrite IH. reflexivity.
Qed.

Lemma parse_knowledge_base_type_error_witness :
  parse_knowledge_base [Tiny.colour "red"; Family.num 7; Tiny.colour "blue"]
  = Raise TypeError.
Proof.
  apply (parse_knowledge_base_type_error [Tiny.colour "red"] (Family.num 7)
           [Tiny.colour "blue"]); [repeat constructor|reflexivity].
Defined.

(** ** Unification *)

Lemma unify_items_keeps u l1 :
  (forall x y b b' ok, u x y b = Ok (b', ok) ->
     forall k v, dict_get k b = Some v -> dict_get k b' = Some v) ->
  forall l2 b b' ok, unify_items u l1 l2 b = Ok (b', ok) ->
    forall k v, dict_get k b = Some v -> dict_get k b' = Some v.
Proof.
  intros Hu. induction l1 as [|x l1 IH]; intros l2 b b' ok H k v Hk.
  - simpl in H. destruct l2; injection H as <- _; exact Hk.
  - destruct l2 as [|y l2]; simpl in H; [injection H as <- _; exact Hk|].
    destruct (u x y b) as [[b1 [|]]| |] eqn:E; try discriminate.
    + eapply IH; [exact H|]. eapply Hu; eassumption.
    + injection H as <- _. eapply Hu; eassumption.
Qed.

(** [unify] only adds bindings: whatever it returns, success or failure,
    every binding of the dictionary it was given is still there with the
    same value. *)
Theorem unify_keeps_bindings fuel t1 t2 b b' ok k v :
  unify fuel t1 t2 b = Ok (b', ok) ->
  dict_get k b = Some v ->
  dict_get k b' = Some v.
Proof.
  revert t1 t2 b b' ok k v.
  induction fuel as [|fuel IH]; intros t1 t2 b b' ok k v H Hk;
    [discriminate|].
  simpl in H.
  destruct (get_variable_name t1) as [name1|].
  { apply obind_ok in H as (k1 & _ & H).
    destruct (dict_get k1 b) as [v1|] eqn:E1.
    - eapply IH; eassumption.
    - injection H as <- _. apply dict_get_set_kept; assumption. }
  destruct (get_variable_name t2) as [name2|].
  { apply obind_ok in H as (k2 & _ & H).
    destruct (dict_get k2 b) as [v2|] eqn:E2.
    - eapply IH; eassumption.
    - injection H as <- _. apply dict_get_set_kept; assumption. }
  destruct t1 as [a1|l1], t2 as [a2|l2];
    try (injection H as <- _; exact Hk).
  destruct (negb (length l1 =? length l2)); [injection H as <- _; exact Hk|].
  eapply unify_items_keeps; [|exact H|exact Hk].
  intros x y b0 b0' ok0 Hxy k0 v0 Hk0. eapply IH; eassumption.
Qed.

Lemma unify_keeps_bindings_witness :
  dict_get (PStr "y")
    [(PStr "y", Family.num 7); (PStr "x", Family.num 5)] = Some (Family.num 7).
Proof.
  apply (unify_keeps_bindings 3
           (PList [var_ref (PStr "x"); Family.num 1])
           (PList [Family.num 5; Family.num 2])
           [(PStr "y", Family.num 7)]
           [(PStr "y", Family.num 7); (PStr "x", Family.num 5)] false
           (PStr "y") (Family.num 7)); reflexivity.
Defined.

Lemma unify_var_ref_l fuel x t b :
  unify (S fuel) (var_ref x) t b =
    match dict_get x b with
    | Some v => unify fuel v t b
    | None => Ok (dict_set x t b, true)
    end.
Proof. reflexivity. Qed.

Lemma unify_var_ref_r fuel x t b :
  get_variable_name t = None ->
  unify (S fuel) t (var_ref x) b =
    match dict_get x b with
    | Some v => unify fuel t v b
    | None => Ok (dict_set x t b, true)
    end.
Proof. intros Ht. simpl. rewrite Ht. reflexivity. Qed.

(** An unbound variable is bound to whatever it is unified with, on
    either side, and a later lookup returns that term.  Nothing is checked
    about the term: it may contain the variable itself. *)
Theorem unify_binds_unbound_variable fuel (x : atom) t b :
  dict_get x b = None ->
  unify (S fuel) (var_ref x) t b = Ok (dict_set x t b, true) /\
  (get_variable_name t = None ->
     unify (S fuel) t (var_ref x) b = Ok (dict_set x t b, true)) /\
  dict_get x (dict_set x t b) = Some t.
Proof.
  intros Hx. split; [|split].
  - rewrite unify_var_ref_l, Hx. reflexivity.
  - intros Ht. rewrite (unify_var_ref_r _ _ _ _ Ht), Hx. reflexivity.
  - apply dict_get_set_same.
Qed.

Lemma unify_binds_unbound_variable_witness :
  unify 1 (var_ref (PStr "x")) (PList [var_ref (PStr "x")]) []
  = Ok ([(PStr "x", PList [var_ref (PStr "x")])], true).
Proof.
  destruct (unify_binds_unbound_variable 0 (PStr "x")
              (PList [var_ref (PStr "x")]) [] eq_refl) as (H & _).
  exact H.
Defined.

(** Unifying an unbound variable with itself succeeds and binds the
    variable to itself.  From then on neither [resolve_variable_chains]
    nor [unify] returns on that variable, whatever the recursion depth. *)
Theorem self_binding_never_resolves (x : atom) b :
  dict_get x b = None ->
  exists b',
    (forall fuel, unify (S fuel) (var_ref x) (var_ref x) b = Ok (b', true)) /\
    (forall fuel, resolve_variable_chains fuel (var_ref x) b' = OutOfFuel) /\
    (forall fuel t, unify fuel (var_ref x) t b' = OutOfFuel).
Proof.
  intros Hx. exists (dict_set x (var_ref x) b).
  pose proof (dict_get_set_same x (var_ref x) b) as Hb.
  split; [|split].
  - intros fuel. rewrite unify_var_ref_l, Hx. reflexivity.
  - intros fuel. induction fuel as [|fuel IH]; [reflexivity|].
    rewrite resolve_var_ref, Hb. exact IH.
  - intros fuel t. induction fuel as [|fuel IH]; [reflexivity|].
    rewrite unify_var_ref_l, Hb. exact IH.
Qed.

Lemma self_binding_never_resolves_witness :
  exists b',
    unify 1 (var_ref (PStr "x")) (var_ref (PStr "x")) [] = Ok (b', true) /\
    resolve_variable_chains 50 (var_ref (PStr "x")) b' = OutOfFuel.
Proof.
  destruct (self_binding_never_resolves (PStr "x") [] eq_refl)
    as (b' & Hu & Hr & _).
  exists b'. split; [apply Hu|apply Hr].
Defined.

(** ** Renaming *)

Lemma mapM_Forall2 {A B} (f : A -> outcome B) l l' :
  mapM f l = Ok l' -> Forall2 (fun x y => f x = Ok y) l l'.
Proof.
  revert l'. induction l as [|x l IH]; simpl; intros l' H.
  - injection H as <-. constructor.
  - destruct (f x) as [y| |] eqn:E; try discriminate.
    destruct (mapM f l) as [ys| |]; try discriminate.
    injection H as <-. constructor; [exact E|apply IH; reflexivity].
Qed.

Lemma get_variable_name_Some t name :
  get_variable_name t = Some name ->
  exists t0, t = PList [t0; name] /\ is_str t0 "v" = true.
Proof.
  unfold get_variable_name.
  destruct t as [a|[|t0 [|t1 [|t2 l]]]]; try discriminate.
  destruct (is_str t0 "v") eqn:E; [|discriminate].
  intros H. injection H as <-. exists t0. split; [reflexivity|exact E].
Qed.

(** What [rename_with] returns for a list: a renamed variable reference,
    or the list of the renamed elements. *)
Lemma rename_with_list suffix items t' :
  rename_with suffix (PList items) = Ok t' ->
  (exists t0 name name',
     items = [t0; name] /\ is_str t0 "v" = true /\ t' = PList [t0; name']) \/
  (get_variable_name (PList items) = None /\
   exists items', t' = PList items' /\
     Forall2 (fun x y => rename_with suffix x = Ok y) items items').
Proof.
  simpl. destruct (get_variable_name (PList items)) as [name|] eqn:E.
  - apply get_variable_name_Some in E as (t0 & Hi & Hv).
    injection Hi as ->. destruct name as [[vn|z|b]|l]; try discriminate.
    intros H. injection H as <-. left. eauto 6.
  - intros H. apply obind_ok in H as (items' & Hm & H). injection H as <-.
    right. split; [reflexivity|]. exists items'. split; [reflexivity|].
    apply mapM_Forall2, Hm.
Qed.

Lemma rename_with_is_str suffix t t' lit :
  rename_with suffix t = Ok t' -> is_str t' lit = is_str t lit.
Proof.
  destruct t as [a|items].
  - simpl. intros H. injection H as <-. reflexivity.
  - intros H.
    apply rename_with_list in H as [(t0 & n1 & n2 & _ & _ & ->)|(_ & l & -> & _)];
      reflexivity.
Qed.

(** Renaming the variables of a goal never changes whether the goal is
    dispatched to the built-in library. *)
Theorem rename_keeps_builtin_dispatch suffix goal goal' :
  rename_with suffix goal = Ok goal' ->
  is_builtin_predicate goal' = is_builtin_predicate goal.
Proof.
  destruct goal as [a|items].
  { simpl. intros H. injection H as <-. reflexivity. }
  intros H.
  apply rename_with_list in H
    as [(t0 & n1 & n2 & -> & Hv & ->)|(_ & items' & -> & Hall)].
  { destruct t0 as [a|l]; [reflexivity|discriminate]. }
  destruct Hall as [|x x' l l' Hx Hl]; [reflexivity|].
  destruct Hl as [|y y' l l' Hy Hl].
  { destruct x as [a|[|? [|? [|? ?]]]], x' as [a'|[|? [|? [|? ?]]]];
      reflexivity. }
  destruct x as [a|xs].
  { simpl in Hx. injection Hx as <-. reflexivity. }
  apply rename_with_list in Hx
    as [(t0 & n1 & n2 & -> & Hv & ->)|(_ & xs' & -> & Hxs)].
  { simpl. apply is_str_true in Hv as ->. reflexivity. }
  destruct Hxs as [|tag tag' ? ? Htag Hxs]; [reflexivity|].
  destruct Hxs as [|pn pn' ? ? Hpn Hxs]; [reflexivity|].
  destruct Hxs as [|? ? ? ? _ _]; [|reflexivity].
  simpl. rewrite (rename_with_is_str _ _ _ "n" Htag).
  rewrite !(rename_with_is_str _ _ _ _ Hpn). reflexivity.
Qed.

Lemma rename_keeps_builtin_dispatch_witness :
  is_builtin_predicate
    (PList [Family.n ">"; PList [Family.v "y2_1000"; Family.v "y1_1000"]])
  = true.
Proof.
  apply (rename_keeps_builtin_dispatch "1000"
           (PList [Family.n ">"; PList [Family.v "y2"; Family.v "y1"]])
           (PList [Family.n ">"; PList [Family.v "y2_1000"; Family.v "y1_1000"]])
           eq_refl).
Defined.

(** A term without variable references is returned unchanged by
    [rename_with], whatever the suffix: facts and constants in a rule are
    never touched. *)
Theorem rename_ground_unchanged suffix t :
  ground t = true -> rename_with suffix t = Ok t.
Proof.
  induction t as [a|items IH] using term_induction; intros Hg;
    [reflexivity|].
  simpl in *. destruct (get_variable_name (PList items)); [discriminate|].
  rewrite mapM_id; [reflexivity|].
  rewrite forallb_forall in Hg. rewrite Forall_forall in IH.
  apply Forall_forall. intros x Hx. apply IH; [exact Hx|].
  apply Hg, list_elem_of_In, Hx.
Qed.

Lemma rename_ground_unchanged_witness :
  rename_with "1234" (Family.parent "albert" "jim")
  = Ok (Family.parent "albert" "jim").
Proof.
  apply (rename_ground_unchanged "1234" (Family.parent "albert" "jim")).
  reflexivity.
Defined.

(** ** Empty bindings *)

(** Under the empty binding set both [substitute_variables] and
    [resolve_variable_chains] return the term they are given, variables
    included. *)
Theorem empty_bindings_change_nothing t :
  hashable_names t = true ->
  substitute_variables t [] = Ok t /\
  (forall fuel, height t < fuel -> resolve_variable_chains fuel t [] = Ok t).
Proof.
  induction t as [a|items IH] using term_induction; intros Hh.
  { split; [reflexivity|]. intros [|fuel] Hf; [lia|reflexivity]. }
  simpl in Hh.
  assert (Hitems : get_variable_name (PList items) = None ->
            Forall (fun x =>
              substitute_variables x [] = Ok x /\
              (forall fuel, height x < fuel ->
                 resolve_variable_chains fuel x [] = Ok x)) items).
  { intros E. rewrite E in Hh. rewrite forallb_forall in Hh.
    rewrite Forall_forall in IH. apply Forall_forall. intros x Hx.
    apply IH; [exact Hx|]. apply Hh, list_elem_of_In, Hx. }
  split.
  - simpl. destruct (get_variable_name (PList items)) as [[a|l]|];
      [reflexivity|discriminate|].
    rewrite mapM_id; [reflexivity|].
    eapply Forall_impl; [apply Hitems; reflexivity|]. intros x [Hx _]. exact Hx.
  - intros [|fuel] Hf; [lia|]. simpl resolve_variable_chains.
    destruct (get_variable_name (PList items)) as [[a|l]|];
      [reflexivity|discriminate|].
    rewrite mapM_id; [reflexivity|].
    specialize (Hitems eq_refl). rewrite Forall_forall in Hitems.
    apply Forall_forall. intros x Hx. apply Hitems; [exact Hx|].
    pose proof (height_item x items Hx). lia.
Qed.

Lemma empty_bindings_change_nothing_witness :
  substitute_variables (PList [Family.v "a"; Family.v "b"]) []
  = Ok (PList [Family.v "a"; Family.v "b"]).
Proof.
  destruct (empty_bindings_change_nothing (PList [Family.v "a"; Family.v "b"])
              eq_refl) as (H & _).
  exact H.
Defined.

(** ** Conjunctions with [<] *)

Lemma for_each_all_nil {A B} (f : A -> M (list B)) (l : list A) :
  (forall x st r st', f x st = Ok (r, st') -> r = []) ->
  forall st r st', for_each f l st = Ok (r, st') -> r = [].
Proof.
  intros Hf. induction l as [|x l IH]; intros st r st' H; simpl in H.
  - apply mret_ok in H as [-> _]. reflexivity.
  - step H as ys st1 H1. step H as rest st2 H2. apply mret_ok in H as [-> _].
    apply Hf in H1 as ->. apply IH in H2 as ->. reflexivity.
Qed.

Lemma less_than_goal_builtin goal :
  less_than_goal goal = true -> is_builtin_predicate goal = true.
Proof.
  destruct goal as [a|[|[a|[|tag [|pn [|? ?]]]] [|arg rest]]];
    simpl; try discriminate.
  intros H. apply andb_true_iff in H as [-> ->].
  simpl. rewrite !orb_true_r. reflexivity.
Qed.

Lemma solve_builtin_less_than randint self fuel goal b st sols st' :
  less_than_goal goal = true ->
  solve_builtin randint self fuel goal b st = Ok (sols, st') ->
  sols = [] /\ st' = st.
Proof.
  destruct goal as [a|[|[a|[|tag [|pn [|? ?]]]] [|arg rest]]];
    simpl; try discriminate.
  intros H. apply andb_true_iff in H as [Ht Hp].
  apply is_str_true in Ht as ->. apply is_str_true in Hp as ->.
  destruct fuel as [|fuel]; [discriminate|].
  simpl. unfold mbind, lift. simpl. intros E.
  apply mret_ok in E as [-> ->]. split; reflexivity.
Qed.

(** [<] is recognised as a built-in but has no implementation: a
    conjunction that contains a [<] goal, at any position, never has a
    solution. *)
Theorem conjunction_with_less_than_fails
    randint self fuel goals b st sols st' :
  Exists (fun goal => less_than_goal goal = true) goals ->
  solve_body randint self fuel (PList goals) b st = Ok (sols, st') ->
  sols = [].
Proof.
  revert goals b st sols st'.
  induction fuel as [|fuel IH]; intros goals b st sols st' Hex H;
    [discriminate|].
  destruct goals as [|first_goal rest_goals]; [inversion Hex|].
  simpl in H. step H as fs st1 H1.
  apply Exists_cons in Hex as [Hfirst|Hrest].
  - rewrite (less_than_goal_builtin _ Hfirst) in H1.
    apply (solve_builtin_less_than _ _ _ _ _ _ _ _ Hfirst) in H1 as [-> ->].
    simpl in H. apply mret_ok in H as [-> _]. reflexivity.
  - eapply for_each_all_nil; [|exact H].
    intros x s r s' Hx. destruct rest_goals; [inversion Hrest|].
    eapply IH; [exact Hrest|exact Hx].
Qed.

Lemma conjunction_with_less_than_fails_witness :
  exists sols st',
    solve_body Family.distinct_draws Tiny.self 8
      (PList [Tiny.goal; less_goal]) 1 Tiny.st0 = Ok (sols, st') /\
    sols = [].
Proof.
  eexists _, _. split; [vm_compute; reflexivity|].
  eapply (conjunction_with_less_than_fails Family.distinct_draws Tiny.self 8
            [Tiny.goal; less_goal] 1 Tiny.st0).
  - right. left. reflexivity.
  - vm_compute. reflexivity.
Defined.

(** ** The facts loop *)

Lemma copy_unify_run fuel goal fact b d' (ok : bool) st :
  unify fuel goal fact (deref (heap st) b) = Ok (d', ok) ->
  mbind (deepcopy b) (fun c =>
    mbind (unify_at fuel goal fact c) (fun result_bindings =>
      mret (option_list result_bindings))) st
  = Ok (if ok then [next st] else [], alloc d' st).
Proof.
  intros Hu.
  assert (E : deref (<[next st := deref (heap st) b]> (heap st)) (next st)
              = deref (heap st) b) by apply (deref_alloc _ st).
  unfold mbind, deepcopy, unify_at, mbind, load, lift, store, mret.
  simpl. rewrite E, Hu. simpl. rewrite insert_insert_eq.
  destruct ok; reflexivity.
Qed.

Lemma deref_alloc_other d st r :
  (r < next st)%positive -> deref (heap (alloc d st)) r = deref (heap st) r.
Proof. apply deref_unchanged, unchanged_alloc. Qed.

(** The facts loop of [solve_goal], run from the binding set [b]: one new
    dictionary per fact that unifies, holding what [unify] made of a copy
    of [b]. *)
Lemma facts_loop_run fuel goal b facts :
  forall st,
    (b < next st)%positive ->
    Forall (fun fact =>
              exists r, unify fuel goal fact (deref (heap st) b) = Ok r)
           facts ->
    exists sols st',
      for_each (fun fact =>
          mbind (deepcopy b) (fun c =>
            mbind (unify_at fuel goal fact c) (fun result_bindings =>
              mret (option_list result_bindings)))) facts st
        = Ok (sols, st') /\
      unchanged st st' /\
      map (deref (heap st')) sols
        = fact_matches fuel goal (deref (heap st) b) facts.
Proof.
  induction facts as [|fact facts IH]; intros st Hb Hall.
  - exists [], st. split; [reflexivity|]. split; [apply unchanged_refl|reflexivity].
  - apply Forall_cons in Hall as [[[d' ok] Hu] Hall].
    destruct (IH (alloc d' st)) as (sols & st' & Hrun & Hun & Hmap).
    { simpl. lia. }
    { rewrite (deref_alloc_other _ _ _ Hb). exact Hall. }
    exists ((if ok then [next st] else []) ++ sols), st'.
    split; [|split].
    + simpl. unfold mbind at 1. rewrite (copy_unify_run _ _ _ _ _ _ _ Hu).
      unfold mbind at 1. rewrite Hrun. reflexivity.
    + eapply unchanged_trans; [apply unchanged_alloc|exact Hun].
    + rewrite map_app, Hmap, (deref_alloc_other _ _ _ Hb).
      unfold fact_matches. simpl. rewrite Hu. f_equal.
      destruct ok; [|reflexivity]. simpl.
      rewrite (deref_unchanged _ _ _ Hun) by (simpl; lia).
      rewrite deref_alloc. reflexivity.
Qed.

Lemma solve_goal_facts_run randint fuel goal b facts st :
  (b < next st)%positive ->
  Forall (fun fact =>
            exists r, unify fuel goal fact (deref (heap st) b) = Ok r)
         facts ->
  exists sols st',
    solve_goal randint (KB facts []) (S fuel) goal b st = Ok (sols, st') /\
    unchanged st st' /\
    map (deref (heap st')) sols
      = fact_matches fuel goal (deref (heap st) b) facts.
Proof.
  intros Hb Hall.
  destruct (facts_loop_run fuel goal b facts st Hb Hall)
    as (sols & st' & Hrun & Hun & Hmap).
  exists sols, st'. split; [|split; assumption].
  simpl. unfold mbind at 1. rewrite Hrun. simpl.
  unfold mbind, mret. simpl. rewrite app_nil_r. reflexivity.
Qed.

(** Over a knowledge base of facts only, [solve_goal] returns one
    solution per fact that unifies with the goal, in the order of the
    facts and without stopping at the first: each solution holds what
    [unify] made of a copy of the caller's bindings, and the caller's
    bindings keep their contents. *)
Theorem solve_goal_over_facts randint fuel goal (b : ref) facts st :
  (b < next st)%positive ->
  Forall (fun fact =>
            exists r, unify fuel goal fact (deref (heap st) b) = Ok r)
         facts ->
  exists sols st',
    solve_goal randint (KB facts []) (S fuel) goal b st = Ok (sols, st') /\
    map (deref (heap st')) sols
      = fact_matches fuel goal (deref (heap st) b) facts /\
    deref (heap st') b = deref (heap st) b.
Proof.
  intros Hb Hall.
  destruct (solve_goal_facts_run randint fuel goal b facts st Hb Hall)
    as (sols & st' & Hrun & Hun & Hmap).
  exists sols, st'. split; [exact Hrun|]. split; [exact Hmap|].
  apply deref_unchanged; assumption.
Qed.

Lemma solve_goal_over_facts_witness :
  exists sols st',
    solve_goal Family.distinct_draws
      (KB [Tiny.colour "red"; Family.male "jim"; Tiny.colour "blue"] [])
      4 Tiny.goal 1 Tiny.st0 = Ok (sols, st') /\
    map (deref (heap st')) sols
      = [[(PStr "q", Family.str "red")]; [(PStr "q", Family.str "blue")]].
Proof.
  assert (Hb : (1 < next Tiny.st0)%positive) by (simpl; lia).
  destruct (solve_goal_over_facts Family.distinct_draws 3 Tiny.goal 1
              [Tiny.colour "red"; Family.male "jim"; Tiny.colour "blue"]
              Tiny.st0 Hb) as (sols & st' & Hrun & Hmap & _).
  { repeat constructor; eexists; vm_compute; reflexivity. }
  exists sols, st'. split; [exact Hrun|]. rewrite Hmap. reflexivity.
Defined.

(** ** Goals about a predicate without clauses *)

Lemma unify_other_predicate fuel name args fact d :
  other_predicate name fact = true ->
  unify (S (S (S fuel))) (call name args) fact d = Ok (d, false).
Proof.
  destruct fact as [a|[|[a|[|[[tag|?|?]|?] [|[[p|?|?]|?] [|? ?]]]] rest]];
    simpl; try discriminate.
  intros H. apply andb_true_iff in H as [Ht Hp].
  apply String.eqb_eq in Ht as ->. apply negb_true_iff in Hp.
  rewrite String.eqb_sym in Hp.
  unfold call, get_variable_name. simpl.
  destruct rest as [|r1 [|r2 rest]]; simpl; try reflexivity.
  unfold get_variable_name. simpl. rewrite Hp. reflexivity.
Qed.

Lemma fact_matches_other_predicate fuel name args d facts :
  Forall (fun fact => other_predicate name fact = true) facts ->
  fact_matches (S (S (S fuel))) (call name args) d facts = [].
Proof.
  induction 1 as [|fact facts Hf _ IH]; [reflexivity|].
  unfold fact_matches in *. cbn [flat_map].
  rewrite (unify_other_predicate _ _ _ _ _ Hf). exact IH.
Qed.

Lemma solve_goal_other_predicates randint fuel name args b facts st :
  (b < next st)%positive ->
  Forall (fun fact => other_predicate name fact = true) facts ->
  exists st',
    solve_goal randint (KB facts []) (S (S (S (S fuel)))) (call name args) b st
      = Ok ([], st') /\
    unchanged st st'.
Proof.
  intros Hb Hall.
  destruct (solve_goal_facts_run randint (S (S (S fuel))) (call name args)
              b facts st Hb) as (sols & st' & Hrun & Hun & Hmap).
  { eapply Forall_impl; [exact Hall|]. intros fact Hf.
    eexists. apply unify_other_predicate, Hf. }
  rewrite (fact_matches_other_predicate _ _ _ _ _ Hall) in Hmap.
  destruct sols; [|discriminate]. exists st'. split; assumption.
Qed.

Lemma solve_not_run randint self fuel goal b st :
  solve_not randint self (S fuel) (PList [goal]) b st =
    match solve_goal randint self fuel goal (next st)
            (alloc (deref (heap st) b) st) with
    | Ok ([], st') => Ok ([b], st')
    | Ok (_ :: _, st') => Ok ([], st')
    | Raise e => Raise e
    | OutOfFuel => OutOfFuel
    end.
Proof.
  destruct (solve_goal randint self fuel goal (next st)
              (alloc (deref (heap st) b) st)) as [[sols st']| |] eqn:E;
    simpl; unfold mbind, lift, deepcopy; simpl; rewrite E;
    [destruct sols|..]; reflexivity.
Qed.

(** [not] hands its argument to [solve_goal], never to the built-in
    library.  Over a knowledge base of facts none of which is about [=],
    [not(=(x, y))] therefore succeeds with the caller's bindings for every
    [x] and [y], equal or not. *)
Theorem negated_equality_always_succeeds randint fuel x y (b : ref) facts st :
  (b < next st)%positive ->
  Forall (fun fact => other_predicate "=" fact = true) facts ->
  exists st',
    solve_not randint (KB facts []) (S (S (S (S (S fuel)))))
      (PList [call "=" (PList [x; y])]) b st = Ok ([b], st') /\
    deref (heap st') b = deref (heap st) b.
Proof.
  intros Hb Hall.
  destruct (solve_goal_other_predicates randint fuel "=" (PList [x; y])
              (next st) facts (alloc (deref (heap st) b) st))
    as (st' & Hrun & Hun); [simpl; lia|exact Hall|].
  exists st'. split.
  - rewrite solve_not_run, Hrun. reflexivity.
  - apply deref_unchanged; [|exact Hb].
    eapply unchanged_trans; [apply unchanged_alloc|exact Hun].
Qed.

Lemma negated_equality_always_succeeds_witness :
  exists st',
    solve_not Family.distinct_draws
      (KB [Tiny.colour "red"; Tiny.colour "blue"] []) 5
      (PList [call "=" (PList [Family.num 1; Family.num 1])]) 1 Tiny.st0
    = Ok ([1%positive], st').
Proof.
  assert (Hb : (1 < next Tiny.st0)%positive) by (simpl; lia).
  destruct (negated_equality_always_succeeds Family.distinct_draws 0
              (Family.num 1) (Family.num 1) 1
              [Tiny.colour "red"; Tiny.colour "blue"] Tiny.st0 Hb)
    as (st' & H & _).
  { repeat constructor. }
  exists st'. exact H.
Defined.

(** A query about a predicate that no clause is about is no error:
    over a knowledge base parsed into facts about other predicates,
    [only_ssi_test] returns the query variable paired with the empty
    list. *)
Theorem only_ssi_test_unknown_predicate
    randint fuel depth name v0 rest kb facts st :
  parse_knowledge_base kb = Ok (KB facts []) ->
  Forall (fun fact => other_predicate name fact = true) facts ->
  exists st',
    only_ssi_test randint (S (S (S (S (S fuel))))) depth
      (call name (PList (v0 :: rest))) kb st
    = Ok (PList [PList [v0; PList []]], st').
Proof.
  intros Hkb Hall.
  destruct (solve_goal_other_predicates randint fuel name (PList (v0 :: rest))
              (next st) facts (alloc [] st))
    as (st' & Hrun & _); [simpl; lia|exact Hall|].
  exists st'.
  assert (Hq0 : py_getitem (call name (PList (v0 :: rest))) 0
                = Ok (PList [Atom (PStr "n"); Atom (PStr name)]))
    by reflexivity.
  assert (Hq1 : py_getitem (call name (PList (v0 :: rest))) 1
                = Ok (PList (v0 :: rest))) by reflexivity.
  unfold call in Hrun.
  unfold only_ssi_test, mbind, lift, new_dict.
  rewrite Hkb, Hq0, Hq1, Hrun. reflexivity.
Qed.

Lemma only_ssi_test_unknown_predicate_witness :
  exists st',
    only_ssi_test Family.distinct_draws 5 3
      (call "older_brother" (PList [Family.v "result6"]))
      [Tiny.colour "red"; Tiny.colour "blue"] Family.initial
    = Ok (PList [PList [Family.v "result6"; PList []]], st').
Proof.
  apply (only_ssi_test_unknown_predicate Family.distinct_draws 0 3
           "older_brother" (Family.v "result6") []
           [Tiny.colour "red"; Tiny.colour "blue"]
           [Tiny.colour "red"; Tiny.colour "blue"] Family.initial eq_refl).
  repeat constructor.
Defined.

(** A query whose argument list is empty makes [only_ssi_test] raise
    [IndexError] once the goal is solved, with or without solutions: the
    result is built from [variable_info[0]]. *)
Theorem only_ssi_test_empty_arguments
    randint fuel depth query kb st self predicate_info sols st' :
  parse_knowledge_base kb = Ok self ->
  py_getitem query 0 = Ok predicate_info ->
  py_getitem query 1 = Ok (PList []) ->
  solve_goal randint self fuel (PList [predicate_info; PList []])
    (next st) (alloc [] st) = Ok (sols, st') ->
  only_ssi_test randint (S fuel) depth query kb st = Raise IndexError.
Proof.
  intros Hkb Hq0 Hq1 Hs.
  unfold only_ssi_test, mbind, lift, new_dict.
  rewrite Hkb, Hq0, Hq1, Hs.
  destruct sols; reflexivity.
Qed.

Lemma only_ssi_test_empty_arguments_witness :
  only_ssi_test Family.distinct_draws 5 3
    (PList [Family.n "colour"; PList []])
    [Tiny.colour "red"] Family.initial = Raise IndexError.
Proof.
  eapply (only_ssi_test_empty_arguments Family.distinct_draws 4 3
            (PList [Family.n "colour"; PList []]) [Tiny.colour "red"]
            Family.initial); reflexivity.
Defined.

(** ** findall, writeln and = *)

Lemma mbind_run {A B} (m : M A) (k : A -> M B) st a st1 :
  m st = Ok (a, st1) -> mbind m k st = k a st1.
Proof. intros H. unfold mbind. rewrite H. reflexivity. Qed.

(** Runs the first step of a monadic computation. *)
Ltac run_step tac :=
  eapply eq_trans; [apply mbind_run; tac|]; cbv beta.

Lemma results_loop_run template gsols results st :
  mapM (fun s => substitute_variables template (deref (heap st) s)) gsols
    = Ok results ->
  for_each (fun solution =>
      mbind (load solution) (fun d =>
        mbind (lift (substitute_variables template d))
          (fun instantiated_template => mret [instantiated_template])))
    gsols st = Ok (results, st).
Proof.
  revert results. induction gsols as [|s gsols IH]; intros results H;
    simpl in H; cbn [for_each].
  - injection H as <-. reflexivity.
  - destruct (substitute_variables template (deref (heap st) s))
      as [t| |] eqn:E; try discriminate.
    destruct (mapM _ gsols) as [ts| |]; try discriminate.
    injection H as <-.
    rewrite (mbind_run _ _ st [t] st).
    2:{ rewrite (mbind_run _ _ st (deref (heap st) s) st) by reflexivity.
        rewrite (mbind_run _ _ st t st) by (unfold lift; rewrite E; reflexivity).
        reflexivity. }
    rewrite (mbind_run _ _ st ts st) by (apply IH; reflexivity).
    reflexivity.
Qed.

(** With a variable as result argument, [findall] binds that variable, in
    a new copy of the caller's bindings, to the list of the template
    instances, one per solution of the goal list and in the order of the
    solutions.  The template is instantiated with one lookup per variable
    in the bindings of each solution.  An earlier binding of the result
    variable is replaced, not unified with. *)
Theorem solve_findall_collects
    randint self fuel template goals result_var name (b : ref) st
    gsols st2 results :
  (b < next st)%positive ->
  get_variable_name result_var = Some (Atom name) ->
  solve_body randint self fuel (PList goals) (next st)
    (alloc (deref (heap st) b) st) = Ok (gsols, st2) ->
  mapM (fun s => substitute_variables template (deref (heap st2) s)) gsols
    = Ok results ->
  solve_findall randint self (S fuel)
    (PList [template; PList goals; result_var]) b st
  = Ok ([next st2],
        alloc (dict_set name (PList results) (deref (heap st) b)) st2) /\
  dict_get name (dict_set name (PList results) (deref (heap st) b))
  = Some (PList results).
Proof.
  intros Hb Hv Hs Hres. split; [|apply dict_get_set_same].
  pose proof (results_loop_run template gsols results st2 Hres) as Hloop.
  destruct (solve_frame randint self fuel) as (_ & Hbody & _).
  pose proof Hs as Hfr.
  apply Hbody in Hfr as (Hp & _ & _); [|simpl; lia].
  assert (Hp' : unchanged st st2).
  { eapply unchanged_trans; [apply unchanged_alloc | exact Hp]. }
  simpl.
  run_step ltac:(exact eq_refl). simpl.
  run_step ltac:(exact eq_refl). run_step ltac:(exact eq_refl). run_step ltac:(exact eq_refl).
  run_step ltac:(exact eq_refl). run_step ltac:(exact Hs). run_step ltac:(exact Hloop).
  rewrite Hv.
  run_step ltac:(exact eq_refl). run_step ltac:(exact eq_refl). run_step ltac:(exact eq_refl).
  run_step ltac:(exact eq_refl). unfold mret, alloc. simpl.
  rewrite insert_insert_eq. unfold deref at 1. rewrite lookup_insert_eq.
  simpl. rewrite (deref_unchanged _ _ _ Hp' Hb). reflexivity.
Qed.

Lemma solve_findall_collects_witness :
  exists gsols st2 results,
    solve_body Family.distinct_draws Tiny.self 7 (PList [Tiny.goal]) 2
      (alloc [] Tiny.st0) = Ok (gsols, st2) /\
    solve_findall Family.distinct_draws Tiny.self 8
      (PList [PList [Family.v "q"; Family.str "!"]; PList [Tiny.goal];
              Family.v "r"]) 1 Tiny.st0
    = Ok ([next st2], alloc [(PStr "r", PList results)] st2) /\
    results = [PList [Family.str "red"; Family.str "!"];
               PList [Family.str "blue"; Family.str "!"]].
Proof.
  assert (Hb : (1 < next Tiny.st0)%positive) by (simpl; lia).
  eexists _, _, _. split; [vm_compute; reflexivity|]. split.
  - refine (proj1 (solve_findall_collects Family.distinct_draws Tiny.self 7
              (PList [Family.v "q"; Family.str "!"]) [Tiny.goal]
              (Family.v "r") (PStr "r") 1 Tiny.st0 _ _ _ Hb eq_refl _ _)).
    + vm_compute. reflexivity.
    + vm_compute. reflexivity.
  - reflexivity.
Defined.

(** [writeln] prints its argument after one lookup per variable, appends
    nothing else to the output, and returns the caller's bindings as its
    single solution without touching any dictionary. *)
Theorem solve_writeln_prints x (b : ref) st :
  hashable_names x = true ->
  exists t,
    substitute_variables x (deref (heap st) b) = Ok t /\
    solve_writeln (PList [x]) b st =
      Ok ([b], State (heap st) (next st) (draws st) (stdout st ++ [t])).
Proof.
  intros Hx.
  destruct (substitute_variables_total x (deref (heap st) b) Hx) as [t Ht].
  exists t. split; [exact Ht|].
  unfold solve_writeln, mbind, lift, load, print, py_len, py_getitem. simpl.
  rewrite Ht. reflexivity.
Qed.

Lemma solve_writeln_prints_witness :
  solve_writeln (PList [Family.v "x"]) 1
    (alloc [(PStr "x", Family.v "y"); (PStr "y", Family.num 3)] Family.initial)
  = Ok ([1%positive],
        State (heap (alloc [(PStr "x", Family.v "y"); (PStr "y", Family.num 3)]
                       Family.initial)) 2 0 [Family.v "y"]).
Proof.
  destruct (solve_writeln_prints (Family.v "x") 1
              (alloc [(PStr "x", Family.v "y"); (PStr "y", Family.num 3)]
                 Family.initial) eq_refl) as (t & Ht & H).
  injection Ht as <-. exact H.
Defined.

(** [=(X, t)] for a variable [X] without binding and a term [t] without
    variables has exactly one solution, a new dictionary in which
    resolving [X] gives [t]; the caller's bindings stay as they were. *)
Theorem solve_equals_binds_variable fuel (x : atom) t (b : ref) st :
  (b < next st)%positive ->
  dict_get x (deref (heap st) b) = None ->
  ground t = true ->
  exists st',
    solve_equals (S fuel) (PList [var_ref x; t]) b st = Ok ([next st], st') /\
    (forall fuel', height t + 2 <= fuel' ->
       resolve_variable_chains fuel' (var_ref x) (deref (heap st') (next st))
       = Ok t) /\
    deref (heap st') b = deref (heap st) b.
Proof.
  intros Hb Hx Hg.
  exists (alloc (dict_set x t (deref (heap st) b)) st).
  assert (Hu : unify (S fuel) (var_ref x) t (deref (heap st) b)
               = Ok (dict_set x t (deref (heap st) b), true)).
  { rewrite unify_var_ref_l, Hx. reflexivity. }
  split; [|split].
  - pose proof (copy_unify_run (S fuel) (var_ref x) t b _ _ st Hu) as Hrun.
    unfold solve_equals.
    run_step ltac:(exact eq_refl). cbn [Nat.eqb negb].
    run_step ltac:(exact eq_refl). run_step ltac:(exact eq_refl).
    exact Hrun.
  - intros [|fuel'] Hf; [lia|].
    rewrite deref_alloc, resolve_var_ref, dict_get_set_same.
    apply resolve_ground; [exact Hg|lia].
  - apply deref_alloc_other, Hb.
Qed.

Lemma solve_equals_binds_variable_witness :
  exists st',
    solve_equals 1 (PList [var_ref (PStr "x"); Family.num 3]) 1 Tiny.st0
      = Ok ([2%positive], st') /\
    resolve_variable_chains 2 (var_ref (PStr "x")) (deref (heap st') 2)
      = Ok (Family.num 3).
Proof.
  assert (Hb : (1 < next Tiny.st0)%positive) by (simpl; lia).
  destruct (solve_equals_binds_variable 0 (PStr "x") (Family.num 3) 1
              Tiny.st0 Hb eq_refl eq_refl) as (st' & Hrun & Hres & _).
  exists st'. split; [exact Hrun|]. apply Hres. simpl. lia.
Defined.

(** ** Chains of any length *)

(** [resolve_variable_chains] follows a chain of variable bindings of
    any length down to the ground term at its end, given a recursion
    depth of the length of the chain plus the nesting depth of the term. *)
Theorem resolve_follows_chain b x t n :
  chain_to b x t n ->
  forall fuel, height t + n + 2 <= fuel ->
    resolve_variable_chains fuel (var_ref x) b = Ok t.
Proof.
  induction 1 as [x t Hx Hg|x y t n Hx _ IH]; intros [|fuel] Hf; try lia;
    rewrite resolve_var_ref, Hx.
  - apply resolve_ground; [exact Hg|lia].
  - apply IH. lia.
Qed.

Lemma resolve_follows_chain_witness :
  resolve_variable_chains 4 (var_ref (PStr "result6"))
    [(PStr "result6", var_ref (PStr "c")); (PStr "c", var_ref (PStr "x"));
     (PStr "x", Family.num 7)]
  = Ok (Family.num 7).
Proof.
  apply (resolve_follows_chain _ (PStr "result6") (Family.num 7) 2).
  - eapply chain_step; [reflexivity|].
    eapply chain_step; [reflexivity|].
    apply chain_end; reflexivity.
  - simpl. lia.
Defined.
